(** * LFDT TAC agent: correlation-and-pipeline engine

    A shallow embedding of [agent.py] (classes [AnalysisEngine],
    [ReportExtractor], [ResultManager] and [AIAgent]) together with the
    properties of its project resolution, report collection and staged
    analysis pipeline.

    Conventions of the embedding.
    - A Python [str] is a Rocq [string] whose characters are read as the
      code points U+0000..U+00FF; the character classes below ([isspace],
      [isword], [isupper], [lower_c], [is_linebreak]) are CPython's tables
      restricted to that range. Where the letter case of characters
      beyond it decides a property, the code is read over any alphabet
      (module [Wide]).
    - A Python [set] of strings is a [gset string]; [list(a_set)] is
      [elements], whose order is as unspecified as Python's.
    - A call that may raise returns [Res]; the collaborators (the GitHub
      client, the LLM endpoint) are interfaces, as the duck-typed clients
      of [test_agent.py] are. *)

From Stdlib Require Import NArith ZArith Ascii String DecimalString.
From stdpp Require Import gmap strings list.



(** ** Characters *)

Module Char.

Definition code (c : ascii) : N := N_of_ascii c.

Definition between (lo hi : N) (c : ascii) : bool :=
  (lo <=? code c)%N && (code c <=? hi)%N.

Definition is_code (n : N) (c : ascii) : bool := (code c =? n)%N.

(** [str.isspace] and the regex class [\s]. *)
Definition isspace (c : ascii) : bool :=
  between 9 13 c || between 28 32 c || is_code 133 c || is_code 160 c.

(** [str.isupper] on one character. *)
Definition isupper (c : ascii) : bool :=
  between 65 90 c || between 192 214 c || between 216 222 c.

(** [str.lower] on one character. *)
Definition lower_c (c : ascii) : ascii :=
  if isupper c then ascii_of_N (code c + 32) else c.

(** The regex class [\w] on [str] patterns. *)
Definition isword (c : ascii) : bool :=
  between 48 57 c || between 65 90 c || is_code 95 c || between 97 122 c
  || is_code 170 c || between 178 179 c || is_code 181 c || between 185 186 c
  || between 188 190 c || between 192 214 c || between 216 246 c
  || between 248 255 c.

(** The line boundaries of [str.splitlines]. *)
Definition is_linebreak (c : ascii) : bool :=
  between 10 13 c || between 28 30 c || is_code 133 c.

Definition eqb (a b : ascii) : bool := Ascii.eqb a b.

End Char.

(** ** Python string operations *)

Module Str.

Definition is_empty (s : string) : bool :=
  match s with EmptyString => true | String _ _ => false end.

(** Truthiness of a [str]: [if s:]. *)
Definition truthy (s : string) : bool := negb (is_empty s).

Definition eqb (a b : string) : bool := String.eqb a b.

Fixpoint all (p : ascii -> bool) (s : string) : bool :=
  match s with
  | EmptyString => true
  | String c s' => p c && all p s'
  end.

Fixpoint any (p : ascii -> bool) (s : string) : bool :=
  match s with
  | EmptyString => false
  | String c s' => p c || any p s'
  end.

(** [s.lower()] *)
Fixpoint lower (s : string) : string :=
  match s with
  | EmptyString => EmptyString
  | String c s' => String (Char.lower_c c) (lower s')
  end.

(** [hay.startswith(needle)] *)
Fixpoint startswith (needle hay : string) : bool :=
  match needle, hay with
  | EmptyString, _ => true
  | String _ _, EmptyString => false
  | String a n', String b h' => Char.eqb a b && startswith n' h'
  end.

(** [needle in hay] *)
Fixpoint contains (needle hay : string) : bool :=
  startswith needle hay ||
  match hay with
  | EmptyString => false
  | String _ h' => contains needle h'
  end.

Fixpoint lstrip_by (p : ascii -> bool) (s : string) : string :=
  match s with
  | EmptyString => EmptyString
  | String c s' => if p c then lstrip_by p s' else s
  end.

Fixpoint rstrip_by (p : ascii -> bool) (s : string) : string :=
  match s with
  | EmptyString => EmptyString
  | String c s' =>
      let r := rstrip_by p s' in
      if is_empty r && p c then EmptyString else String c r
  end.

Definition strip_by (p : ascii -> bool) (s : string) : string :=
  rstrip_by p (lstrip_by p s).

(** [s.strip()] *)
Definition strip : string -> string := strip_by Char.isspace.

(** [s.strip(ch)] and [s.rstrip(ch)] for a one-character argument. *)
Definition strip_char (ch : ascii) : string -> string := strip_by (Char.eqb ch).
Definition rstrip_char (ch : ascii) : string -> string := rstrip_by (Char.eqb ch).

(** [s.split(ch)] for a one-character separator. *)
Fixpoint split (ch : ascii) (s : string) : list string :=
  match s with
  | EmptyString => [EmptyString]
  | String c s' =>
      if Char.eqb c ch then EmptyString :: split ch s'
      else match split ch s' with
           | h :: t => String c h :: t
           | [] => [String c EmptyString]
           end
  end.

(** [s.splitlines()]: [cur] is the line being read. *)
Fixpoint splitlines_from (cur : string) (s : string) : list string :=
  match s with
  | EmptyString => if is_empty cur then [] else [cur]
  | String c s' =>
      if Char.is_linebreak c then
        cur :: match s' with
               | String c' s'' =>
                   if Char.is_code 13 c && Char.is_code 10 c'
                   then splitlines_from EmptyString s''
                   else splitlines_from EmptyString s'
               | EmptyString => splitlines_from EmptyString s'
               end
      else splitlines_from (cur +:+ String c EmptyString) s'
  end.

Definition splitlines : string -> list string := splitlines_from EmptyString.

(** [sep.join(parts)] *)
Fixpoint join (sep : string) (parts : list string) : string :=
  match parts with
  | [] => EmptyString
  | [p] => p
  | p :: rest => p +:+ sep +:+ join sep rest
  end.

(** [str(n)] for a non-negative integer, as an f-string prints it. *)
Definition of_nat (n : nat) : string := NilZero.string_of_uint (Nat.to_uint n).

(** [len(s)] *)
Definition len (s : string) : nat := String.length s.

End Str.

(** ** The fragment of Python's [re] the agent uses

    A pattern is a sequence of character classes, each taken once, [*] or
    [+] times (greedy, with backtracking), between the anchors [^] and
    [$]; at most one class is the capture group 1. That covers every
    pattern of [agent.py]. *)

Module Re.

Inductive quant := Once | Star | Plus.

Inductive elem :=
| Bol                                                  (* ^ *)
| Eol                                                  (* $ *)
| Cls (p : ascii -> bool) (q : quant) (capture : bool).

Definition pattern := list elem.

Definition newline : string := String "010"%char EmptyString.

(** A greedy repetition of class [p]: take one more character when
    possible and fall back to the continuation [k] when what follows
    fails. [taken] is the text consumed so far. *)
Fixpoint rep {R} (p : ascii -> bool) (k : string -> string -> option R)
    (taken s : string) : option R :=
  match s with
  | String c s' =>
      if p c then
        match rep p k (taken +:+ String c EmptyString) s' with
        | Some r => Some r
        | None => k taken s
        end
      else k taken s
  | EmptyString => k taken s
  end.

(** Match [pat] at the head of [s]; [at_start] says that [s] is the whole
    subject, [g] is group 1 so far. The result is group 1 and the text
    after the match. [$] matches at the end and before a final newline. *)
Fixpoint match_here (pat : pattern) (at_start : bool) (g : option string)
    (s : string) : option (option string * string) :=
  match pat with
  | [] => Some (g, s)
  | Bol :: pat' => if at_start then match_here pat' at_start g s else None
  | Eol :: pat' =>
      if Str.is_empty s || Str.eqb s newline
      then match_here pat' at_start g s else None
  | Cls p q cap :: pat' =>
      let k taken rest :=
        match_here pat' (at_start && Str.is_empty taken)
          (if cap then Some taken else g) rest in
      match q with
      | Star => rep p k EmptyString s
      | Plus =>
          match s with
          | String c s' => if p c then rep p k (String c EmptyString) s' else None
          | EmptyString => None
          end
      | Once =>
          match s with
          | String c s' => if p c then k (String c EmptyString) s' else None
          | EmptyString => None
          end
      end
  end.

(** [re.match(pat, s)] *)
Definition re_match (pat : pattern) (s : string) : option (option string * string) :=
  match_here pat true None s.

(** [re.search(pat, s)]: the leftmost match. *)
Fixpoint search_from (pat : pattern) (at_start : bool) (s : string)
    : option (option string * string) :=
  match match_here pat at_start None s with
  | Some r => Some r
  | None =>
      match s with
      | String _ s' => search_from pat false s'
      | EmptyString => None
      end
  end.

Definition re_search (pat : pattern) (s : string) : option (option string * string) :=
  search_from pat true s.

(** [m.group(1) if m else None] *)
Definition group1 (m : option (option string * string)) : option string :=
  match m with
  | Some (g, _) => g
  | None => None
  end.

Definition matched (m : option (option string * string)) : bool :=
  match m with Some _ => true | None => false end.

(** A literal character under [re.IGNORECASE]. *)
Definition lit_i (x : ascii) : ascii -> bool :=
  fun c => Char.eqb (Char.lower_c c) (Char.lower_c x).

Fixpoint lits_i (s : string) : pattern :=
  match s with
  | EmptyString => []
  | String x s' => Cls (lit_i x) Once false :: lits_i s'
  end.

Definition one_of (chars : string) : ascii -> bool :=
  fun c => Str.any (Char.eqb c) chars.

(** The classes of the agent's patterns. *)
Definition word_dash : ascii -> bool := fun c => Char.isword c || one_of "-" c.   (* [\w\-] *)
Definition space_colon : ascii -> bool := fun c => Char.isspace c || one_of ":" c. (* [\s:] *)
Definition colon_dash : ascii -> bool := one_of ":-".                              (* [:\-] *)
Definition dash_pipe : ascii -> bool := one_of "-|".                               (* [-|] *)
Definition dash_space : ascii -> bool := fun c => one_of "-" c || Char.isspace c.  (* [\-\s] *)
Definition nonword : ascii -> bool := fun c => negb (Char.isword c).               (* \W *)

(** [re.split(r'\W+', s)]: the pieces between the maximal runs of
    non-word characters, the empty ones at both ends included. [cur] is
    the piece being read, [in_sep] says that a run is being skipped. *)
Fixpoint split_nonword_from (cur : string) (in_sep : bool) (s : string) : list string :=
  match s with
  | EmptyString => [cur]
  | String c s' =>
      if nonword c then
        if in_sep then split_nonword_from cur true s'
        else cur :: split_nonword_from EmptyString true s'
      else split_nonword_from (cur +:+ String c EmptyString) false s'
  end.

Definition split_nonword : string -> list string :=
  split_nonword_from EmptyString false.

End Re.

(** ** Outcomes, pull requests, files and the GitHub client *)

Inductive exn :=
| HTTPError (status : Z)        (* [response.raise_for_status()] *)
| ValueError (msg : string)
| TypeError
| KeyError (key : string)
| IndexError.

Inductive Res (A : Type) :=
| Ok (a : A)
| Raise (e : exn).
Arguments Ok {A} a.
Arguments Raise {A} e.

Global Instance Res_ret : MRet Res := fun A a => Ok a.
Global Instance Res_bind : MBind Res := fun A B k m =>
  match m with
  | Ok a => k a
  | Raise e => Raise e
  end.

(** [try: body except Exception: handler] *)
Definition try_except {A} (body : Res A) (handler : exn -> Res A) : Res A :=
  match body with
  | Ok a => Ok a
  | Raise e => handler e
  end.

(** The value of a text field of a pull request's JSON: [null] or a string. *)
Inductive json_text :=
| JNull
| JStr (s : string).

(** A pull request, as the dict [pr]; [None] is an absent key. *)
Record PullRequest := {
  pr_number : option Z;
  pr_title : option json_text;
  pr_body : option json_text;
  pr_description : option json_text }.

(** [pr.get(key, "")] *)
Definition get_or_empty (field : option json_text) : json_text :=
  match field with
  | Some v => v
  | None => JStr EmptyString
  end.

(** A value inside an f-string: [None] prints as ["None"]. *)
Definition fmt (v : json_text) : string :=
  match v with
  | JNull => "None"
  | JStr s => s
  end.

(** An entry of a file listing: [file_info["type"]], [file_info["name"]]
    when the key is there, and the reference its content is read from. *)
Record FileInfo := {
  f_type : string;
  f_name : option string;
  f_url : option string }.

(** The operations of [GitHubClient] that the extractor and the agent
    call; each is one HTTP exchange and raises on a non-success status. *)
Record GitHubClient := {
  get_open_pull_requests : Res (list PullRequest);
  list_repo_files : Res (list FileInfo);
  get_file_content : FileInfo -> Res string;
  get_file_by_path : string -> Res FileInfo;
  get_pr_files : Z -> Res (list FileInfo) }.

(** [llm_engine.infer_project_name(title, body)] *)
Definition InferEngine := json_text -> json_text -> Res (option string).

(** A loop [for x in xs: acc = body(acc, x)] whose body may raise. *)
Fixpoint for_each {A S} (body : S -> A -> Res S) (xs : list A) (acc : S) : Res S :=
  match xs with
  | [] => Ok acc
  | x :: xs' => acc' ← body acc x; for_each body xs' acc'
  end.

(** [xs.index(x)] *)
Fixpoint list_index (x : string) (xs : list string) : Res nat :=
  match xs with
  | [] => Raise (ValueError "x not in list")
  | y :: ys => if Str.eqb y x then Ok 0 else i ← list_index x ys; Ok (S i)
  end.

(** [xs[i]] *)
Definition list_get (xs : list string) (i : nat) : Res string :=
  match xs !! i with
  | Some x => Ok x
  | None => Raise IndexError
  end.

(** [x in xs] for a list of strings. *)
Definition list_mem (x : string) (xs : list string) : bool :=
  existsb (Str.eqb x) xs.

(** ** ReportExtractor *)

Module ReportExtractor.

(** [([\w\-]+)[\s:]+] *)
Definition title_re : Re.pattern :=
  [Re.Cls Re.word_dash Re.Plus true; Re.Cls Re.space_colon Re.Plus false].

(** [project\s*name\s*[:\-]\s*([\w\-]+)] under [re.IGNORECASE] *)
Definition body_re : Re.pattern :=
  Re.lits_i "project" ++ [Re.Cls Char.isspace Re.Star false] ++
  Re.lits_i "name" ++
  [Re.Cls Char.isspace Re.Star false; Re.Cls Re.colon_dash Re.Once false;
   Re.Cls Char.isspace Re.Star false; Re.Cls Re.word_dash Re.Plus true].

(** [^\s*[-|]+\s*$] *)
Definition separator_row_re : Re.pattern :=
  [Re.Bol; Re.Cls Char.isspace Re.Star false; Re.Cls Re.dash_pipe Re.Plus false;
   Re.Cls Char.isspace Re.Star false; Re.Eol].

(** [^[\-\s]+$] *)
Definition dashes_re : Re.pattern :=
  [Re.Bol; Re.Cls Re.dash_space Re.Plus false; Re.Eol].

(** [candidate and candidate.lower() != "create"] *)
Definition accepted (candidate : option string) : option string :=
  match candidate with
  | Some c =>
      if Str.truthy c && negb (Str.eqb (Str.lower c) "create") then Some c else None
  | None => None
  end.

(** [extract_project_name_from_pr(pr, llm_engine)]: the value returned or
    the exception raised, and the calls made to the engine. *)
Definition extract_project_name_from_pr (pr : PullRequest)
    (llm_engine : option InferEngine)
    : Res (option string) * list (json_text * json_text) :=
  let title := get_or_empty (pr_title pr) in
  match title with
  | JNull => (Raise TypeError, [])
  | JStr title_text =>
      let candidate := Re.group1 (Re.re_match title_re title_text) in
      match accepted candidate with
      | Some c => (Ok (Some c), [])
      | None =>
          let body := get_or_empty (pr_body pr) in
          match body with
          | JNull => (Raise TypeError, [])
          | JStr body_text =>
              let candidate_body := Re.group1 (Re.re_search body_re body_text) in
              match accepted candidate_body with
              | Some c => (Ok (Some c), [])
              | None =>
                  match llm_engine with
                  | Some engine => (engine title body, [(title, body)])
                  | None => (Ok None, [])
                  end
              end
          end
      end
  end.

Definition schedule_path : string := "tac/project-updates/2025/2025-schedule.md".

(** The variables of the loop over the schedule's lines. *)
Record scan := {
  header_found : bool;
  header_cols : list string;
  projects : gset string }.

(** [[col.strip() for col in line.strip("|").split("|")]] *)
Definition columns (line : string) : list string :=
  map Str.strip (Str.split "|" (Str.strip_char "|" line)).

(** One iteration of [for line in lines]. *)
Definition scan_line (st : scan) (line : string) : Res scan :=
  if negb (header_found st) && Str.contains "|" line then
    let header_cols' := map Str.lower (columns line) in
    Ok {| header_found := list_mem "project" header_cols';
          header_cols := header_cols';
          projects := projects st |}
  else if header_found st then
    if Re.matched (Re.re_match separator_row_re line) then Ok st
    else if Str.contains "|" line then
      let cols := columns line in
      if negb (Nat.eqb (length (header_cols st)) 0)
         && Nat.eqb (length cols) (length (header_cols st)) then
        idx ← list_index "project" (header_cols st);
        col ← list_get cols idx;
        let project_name := Str.strip col in
        if Str.truthy project_name
           && negb (Re.matched (Re.re_match dashes_re project_name)) then
          Ok {| header_found := header_found st;
                header_cols := header_cols st;
                projects := {[ Str.lower project_name ]} ∪ projects st |}
        else Ok st
      else Ok st
    else Ok st
  else Ok st.

(** The body of the [try] of [list_possible_projects], from the
    schedule's content on. *)
Definition parse_schedule (content : string) : Res (list string) :=
  if Str.contains "Project" content && Str.contains "|" content then
    st ← for_each scan_line (Str.splitlines content)
           {| header_found := false; header_cols := []; projects := ∅ |};
    Ok (elements (projects st))
  else Raise (ValueError "Schedule file does not appear to contain a markdown table.").

(** The tokens one file adds to [candidate_projects]. *)
Definition add_tokens (candidate_projects : gset string) (tokens : list string)
    : gset string :=
  fold_left (fun acc token =>
               if Str.truthy token && Nat.ltb 2 (Str.len token)
               then {[ Str.lower token ]} ∪ acc else acc)
            tokens candidate_projects.

(** The [except] branch of [list_possible_projects]. *)
Definition projects_from_file_names (github_client : GitHubClient) : Res (list string) :=
  files ← list_repo_files github_client;
  let candidate_projects :=
    fold_left (fun acc file_info =>
                 if negb (Str.eqb (f_type file_info) "file") then acc
                 else add_tokens acc
                        (Re.split_nonword (default EmptyString (f_name file_info))))
              files (∅ : gset string) in
  Ok (elements candidate_projects).

(** The [try] block of [list_possible_projects]. *)
Definition projects_from_schedule (github_client : GitHubClient) : Res (list string) :=
  file_info ← get_file_by_path github_client schedule_path;
  content ← get_file_content github_client file_info;
  parse_schedule content.

Definition list_possible_projects (github_client : GitHubClient) : Res (list string) :=
  try_except (projects_from_schedule github_client)
             (fun _ => projects_from_file_names github_client).

(** The text [determine_project_for_pr] searches. *)
Definition pr_text (pr : PullRequest) : string :=
  Str.lower (fmt (get_or_empty (pr_title pr)) +:+ " " +:+
             fmt (get_or_empty (pr_body pr)) +:+ " " +:+
             fmt (get_or_empty (pr_description pr))).

(** [determine_project_for_pr]; the client and the engine it is given
    are not used. *)
Definition determine_project_for_pr (pr : PullRequest)
    (candidate_projects : list string) : option string :=
  find (fun project => Str.contains project (pr_text pr)) candidate_projects.

(** [re.compile(re.escape(project_name), re.IGNORECASE).search(name)] *)
Definition name_matches (project_name name : string) : bool :=
  Re.matched (Re.re_search (Re.lits_i project_name) name).

Definition filter_reports (files : list FileInfo) (project_name : string)
    : Res (list FileInfo) :=
  if negb (Str.truthy project_name) then Ok []
  else
    for_each (fun filtered f =>
                if Str.eqb (f_type f) "file" then
                  match f_name f with
                  | Some name =>
                      Ok (if name_matches project_name name
                          then filtered ++ [f] else filtered)
                  | None => Raise (KeyError "name")
                  end
                else Ok filtered)
             files [].

Definition extract_reports_from_repo (github_client : GitHubClient)
    (project_name : string) : Res (list string) :=
  files ← list_repo_files github_client;
  matching_files ← filter_reports files project_name;
  for_each (fun reports file_info =>
              content ← get_file_content github_client file_info;
              Ok (if Str.contains (Str.lower project_name) (Str.lower content)
                  then reports ++ [content] else reports))
           matching_files [].

(** The report made of the pull request's own text. *)
Definition text_report (pr : PullRequest) : string :=
  Str.strip (fmt (get_or_empty (pr_body pr)) +:+ Re.newline +:+
             fmt (get_or_empty (pr_description pr))).

Definition extract_reports_from_pr (pr : PullRequest)
    (github_client : GitHubClient) : Res (list string) :=
  reports ←
    match pr_number pr with
    | Some number =>
        pr_files ← get_pr_files github_client number;
        for_each (fun reports file_info =>
                    content ← get_file_content github_client file_info;
                    Ok (if Str.truthy content then reports ++ [content] else reports))
                 pr_files []
    | None => Ok []
    end;
  match reports with
  | _ :: _ => Ok reports
  | [] =>
      let content := text_report pr in
      if Str.truthy content then Ok [content] else Ok []
  end.

End ReportExtractor.

(** ** The inference service, the result file and the agent

    The state the agent runs in: the content of the result file (absent
    until first written), the contents handed to [write_output] so far
    (oldest first, kept for the statements only), and the state of the LLM
    endpoint, of a type [L] the agent does not look into. *)

Record World (L : Type) := {
  out_file : option string;
  sink_log : list string;
  llm : L }.
Arguments out_file {L} w.
Arguments sink_log {L} w.
Arguments llm {L} w.

(** A computation that reads and writes the world and may raise; what was
    written before an exception stays written. *)
Definition M (L A : Type) : Type := World L -> Res A * World L.

Global Instance M_ret {L} : MRet (M L) := fun A a w => (Ok a, w).
Global Instance M_bind {L} : MBind (M L) := fun A B k m w =>
  match m w with
  | (Ok a, w') => k a w'
  | (Raise e, w') => (Raise e, w')
  end.

(** A call to a collaborator that does not touch the world. *)
Definition lift {L A} (r : Res A) : M L A := fun w => (r, w).

(** The JSON body posted to [/api/generate]. *)
Record Payload := {
  p_model : string;
  p_prompt : string;
  p_max_tokens : Z;
  p_temperature : Z;
  p_stop : list string;
  p_stream : bool }.

(** [requests.post(url, json=payload)], [raise_for_status()] and
    [response.json().get("response", "")]: the text generated, or the
    failure, and the endpoint's next state. *)
Definition Endpoint (L : Type) : Type := string -> Payload -> L -> Res string * L.

Definition nl : string := Re.newline.

Module AnalysisEngine.

Record t := {
  llm_server_url : string;
  model : string }.

(** [__init__] *)
Definition init (llm_server_url model : string) : t :=
  {| llm_server_url := Str.rstrip_char "/" llm_server_url; model := model |}.

Section Calls.
Context {L : Type} (post : Endpoint L) (self : t).

Definition generate (payload : Payload) : M L string :=
  fun w =>
    let '(r, l') := post (llm_server_url self +:+ "/api/generate") payload (llm w) in
    (r, {| out_file := out_file w; sink_log := sink_log w; llm := l' |}).

Definition single_report_prompt (report : string) (index : nat) : string :=
  "Analyze the following report (file " +:+ Str.of_nat index +:+
  ") and provide your thinking process step by step. " +:+
  "Make sure to retain all important attributes (e.g. maintenance, trends, risks, contributor details) " +:+
  "from the report. Report:" +:+ nl +:+ nl +:+
  report +:+ nl +:+ nl +:+
  "Your detailed analysis (chain-of-thought):".

Definition analyze_single_report (report : string) (index : nat) : M L string :=
  let payload := {| p_model := model self;
                    p_prompt := single_report_prompt report index;
                    p_max_tokens := 150;
                    p_temperature := 0;
                    p_stop := [nl];
                    p_stream := false |} in
  response ← generate payload;
  mret (Str.strip response).

Definition final_prompt (reports : list string) : string :=
  let aggregated := Str.join (nl +:+ nl) reports in
  "Based on the following individual analysis steps, produce a comprehensive evaluation summary " +:+
  "with your detailed chain-of-thought. Retain all crucial attributes and include your reasoning process:" +:+
  nl +:+ nl +:+ aggregated +:+ nl +:+ nl +:+ "Final Summary:".

Definition analyze_reports (reports : list string) : M L string :=
  let payload := {| p_model := model self;
                    p_prompt := final_prompt reports;
                    p_max_tokens := 250;
                    p_temperature := 0;
                    p_stop := [nl];
                    p_stream := false |} in
  response ← generate payload;
  mret (Str.strip response).

End Calls.

End AnalysisEngine.

Module ResultManager.

(** What [write_output] puts in the file. *)
Definition rendered (project content : string) : string :=
  project +:+ ":" +:+ nl +:+ nl +:+ content +:+ nl.

(** [write_output(project, content)]: the file is opened with mode "w",
    so its former content is gone. *)
Definition write_output {L} (project content : string) : M L unit :=
  fun w =>
    (Ok tt, {| out_file := Some (rendered project content);
               sink_log := sink_log w ++ [rendered project content];
               llm := llm w |}).

End ResultManager.

Module AIAgent.

Record t := {
  github_client : GitHubClient;
  analysis_engine : AnalysisEngine.t }.

Section Agent.
Context {L : Type} (post : Endpoint L) (self : t).

(** The line an analysis adds to [analysis_steps]. *)
Definition step_text (idx : nat) (step : string) : string :=
  "Step " +:+ Str.of_nat idx +:+ " Analysis:" +:+ nl +:+ step.

(** [for idx, report in enumerate(reports, 1)], from index [idx] on
    with the steps gathered so far. *)
Fixpoint analyze_each (project : string) (reports : list string) (idx : nat)
    (analysis_steps : list string) : M L (list string) :=
  match reports with
  | [] => mret analysis_steps
  | report :: rest =>
      step ← AnalysisEngine.analyze_single_report post (analysis_engine self) report idx;
      let analysis_steps' := analysis_steps ++ [step_text idx step] in
      ResultManager.write_output project (Str.join (nl +:+ nl) analysis_steps');;
      analyze_each project rest (S idx) analysis_steps'
  end.

(** The branch [if reports:] of [process_pull_request]. *)
Definition run_pipeline (project : string) (reports : list string) : M L unit :=
  analysis_steps ← analyze_each project reports 1 [];
  final_summary ← AnalysisEngine.analyze_reports post (analysis_engine self) analysis_steps;
  ResultManager.write_output project ("Final Summary:" +:+ nl +:+ final_summary).

Definition process_pull_request (pr : PullRequest) (candidate_projects : list string)
    : M L unit :=
  match ReportExtractor.determine_project_for_pr pr candidate_projects with
  | None => mret tt
  | Some project =>
      if negb (Str.truthy project) then mret tt
      else
        from_pr ← lift (ReportExtractor.extract_reports_from_pr pr (github_client self));
        from_repo ← lift (ReportExtractor.extract_reports_from_repo (github_client self) project);
        let reports := from_pr ++ from_repo in
        match reports with
        | _ :: _ => run_pipeline project reports
        | [] => mret tt
        end
  end.

(** [for pr in pull_requests: self.process_pull_request(pr, candidate_projects)] *)
Fixpoint process_all (pull_requests : list PullRequest) (candidate_projects : list string)
    : M L unit :=
  match pull_requests with
  | [] => mret tt
  | pr :: rest =>
      process_pull_request pr candidate_projects;;
      process_all rest candidate_projects
  end.

Definition run : M L unit :=
  candidate_projects ← lift (ReportExtractor.list_possible_projects (github_client self));
  pull_requests ← lift (get_open_pull_requests (github_client self));
  match pull_requests with
  | [] => mret tt
  | _ :: _ => process_all pull_requests candidate_projects
  end.

End Agent.

End AIAgent.

(** ** Notions the statements use *)

(** [needle] occurs in [hay] as a substring. *)
Definition occurs_in (needle hay : string) : Prop :=
  exists before after, hay = before +:+ needle +:+ after.

(** No changed file of the pull request yields content: the pull request
    has no number, or its changed files are listed and each reads as the
    empty string. *)
Definition no_file_content (pr : PullRequest) (github_client : GitHubClient) : Prop :=
  match pr_number pr with
  | None => True
  | Some number =>
      exists pr_files,
        get_pr_files github_client number = Ok pr_files
        /\ Forall (fun f => get_file_content github_client f = Ok EmptyString) pr_files
  end.

(** No changed file of the pull request yields non-empty content: whatever
    changed file of it is read, the content read is empty. Listing the
    files, or reading one of them, may fail. *)
Definition no_nonempty_file_content (pr : PullRequest) (github_client : GitHubClient)
    : Prop :=
  forall number pr_files f content,
    pr_number pr = Some number ->
    get_pr_files github_client number = Ok pr_files ->
    In f pr_files ->
    get_file_content github_client f = Ok content ->
    content = EmptyString.

(** The first failure among the reads of the given files, in their order. *)
Fixpoint first_read_failure (github_client : GitHubClient) (pr_files : list FileInfo)
    : option exn :=
  match pr_files with
  | [] => None
  | f :: rest =>
      match get_file_content github_client f with
      | Raise e => Some e
      | Ok _ => first_read_failure github_client rest
      end
  end.

(** The first failure met when the changed files of a pull request are
    listed and then read one after the other: that of the listing, or else
    that of the first file that cannot be read. *)
Definition first_file_failure (pr : PullRequest) (github_client : GitHubClient)
    : option exn :=
  match pr_number pr with
  | None => None
  | Some number =>
      match get_pr_files github_client number with
      | Raise e => Some e
      | Ok pr_files => first_read_failure github_client pr_files
      end
  end.

(** The synthetic report as the specification words it: the title, the
    body and the description, concatenated. *)
Definition title_body_description (pr : PullRequest) : string :=
  fmt (get_or_empty (pr_title pr)) +:+ fmt (get_or_empty (pr_body pr)) +:+
  fmt (get_or_empty (pr_description pr)).

(** The specification's reading of the fallback of
    [extract_reports_from_pr]. *)
Definition synthetic_report_has_title (pr : PullRequest) (github_client : GitHubClient)
    : Prop :=
  no_file_content pr github_client ->
  ReportExtractor.extract_reports_from_pr pr github_client
  = Ok (if Str.truthy (title_body_description pr)
        then [title_body_description pr] else []).

(** The schedule document cannot be used: it cannot be fetched, its
    content cannot be read, or the content has no "Project" or no pipe in
    it and so is no table. *)
Definition schedule_unusable (github_client : GitHubClient) : Prop :=
  match get_file_by_path github_client ReportExtractor.schedule_path with
  | Raise _ => True
  | Ok file_info =>
      match get_file_content github_client file_info with
      | Raise _ => True
      | Ok content =>
          Str.contains "Project" content = false \/ Str.contains "|" content = false
      end
  end.

(** The maximal runs of word characters of a text. [ends_with_nonword s]:
    [s] is empty or its last character is not a word character;
    [starts_with_nonword s]: the same of its first character. *)
Fixpoint ends_with_nonword (s : string) : bool :=
  match s with
  | EmptyString => true
  | String c EmptyString => Re.nonword c
  | String _ s' => ends_with_nonword s'
  end.

Definition starts_with_nonword (s : string) : bool :=
  match s with
  | EmptyString => true
  | String c _ => Re.nonword c
  end.

(** [token] is a maximal run of word characters of [name]: it is not empty,
    it is made of word characters, and in [name] it stands between the
    ends of the text or characters that are not word characters. *)
Definition word_run (token name : string) : Prop :=
  token <> EmptyString
  /\ Str.all Char.isword token = true
  /\ exists before after,
       name = before +:+ token +:+ after
       /\ ends_with_nonword before = true
       /\ starts_with_nonword after = true.

(** The schedule table as the specification words it. *)
Module Table.

(** A header row: pipe-delimited, with a column that normalizes to
    "project". *)
Definition is_header_row (line : string) : bool :=
  Str.contains "|" line
  && list_mem "project" (map Str.lower (ReportExtractor.columns line)).

(** The first header row and the rows after it. *)
Fixpoint find_table (lines : list string) : option (string * list string) :=
  match lines with
  | [] => None
  | line :: rest => if is_header_row line then Some (line, rest) else find_table rest
  end.

(** The position of the first column named [x]. *)
Fixpoint position (x : string) (cols : list string) : option nat :=
  match cols with
  | [] => None
  | c :: cols' => if Str.eqb c x then Some 0 else S <$> position x cols'
  end.

Definition is_separator_row (row : string) : bool :=
  Re.matched (Re.re_match ReportExtractor.separator_row_re row).

(** Made of hyphens and whitespace only. *)
Definition only_separators (value : string) : bool := Str.all Re.dash_space value.

(** What a row after the header contributes: the trimmed, lowercased
    value of its "project" column when the row is pipe-delimited, is not a
    separator row, has as many columns as the header, and the value is
    neither empty nor made of separator characters. *)
Definition project_value (header_cols : list string) (row : string) : option string :=
  if is_separator_row row || negb (Str.contains "|" row) then None
  else
    let cols := ReportExtractor.columns row in
    if Nat.eqb (length cols) (length header_cols) then
      idx ← position "project" header_cols;
      value ← cols !! idx;
      let value := Str.strip value in
      if Str.is_empty value || only_separators value then None
      else Some (Str.lower value)
    else None.

Definition table_projects (content : string) : gset string :=
  match find_table (Str.splitlines content) with
  | None => ∅
  | Some (header, rows) =>
      list_to_set (omap (project_value (map Str.lower (ReportExtractor.columns header))) rows)
  end.

End Table.

(** The specification's reading of the primary path of
    [list_possible_projects]: a readable schedule is parsed as a table. *)
Definition discovery_reads_table (github_client : GitHubClient) (content : string) : Prop :=
  forall file_info,
    get_file_by_path github_client ReportExtractor.schedule_path = Ok file_info ->
    get_file_content github_client file_info = Ok content ->
    exists project_list,
      ReportExtractor.list_possible_projects github_client = Ok project_list
      /\ forall x, In x project_list <-> x ∈ Table.table_projects content.

(** The specification's reading of the fallback of
    [list_possible_projects]: a schedule that is read but holds no table
    is of the wrong shape, and sends discovery to the file names as a
    schedule that cannot be read does. *)
Definition tableless_schedule_falls_back (github_client : GitHubClient) (content : string)
    : Prop :=
  forall file_info files,
    get_file_by_path github_client ReportExtractor.schedule_path = Ok file_info ->
    get_file_content github_client file_info = Ok content ->
    Table.find_table (Str.splitlines content) = None ->
    list_repo_files github_client = Ok files ->
    exists project_list,
      ReportExtractor.list_possible_projects github_client = Ok project_list
      /\ forall x,
           In x project_list
           <-> exists f token,
                 In f files /\ f_type f = "file"
                 /\ word_run token (default EmptyString (f_name f))
                 /\ 2 < Str.len token /\ x = Str.lower token.

(** What the result file holds after the given analysis steps. *)
Definition step_log (project : string) (steps : list string) : string :=
  ResultManager.rendered project (Str.join (nl +:+ nl) steps).

(** An endpoint whose answer (text or failure) is a function of the
    request, whatever state it is in. *)
Definition deterministic {L} (post : Endpoint L) : Prop :=
  forall url payload l1 l2, fst (post url payload l1) = fst (post url payload l2).

(** Processing with failures kept inside each pull request, as the
    specification words it: whatever happens to one pull request, the next
    one is processed from the world the former left. *)
Fixpoint process_isolated {L} (post : Endpoint L) (agent : AIAgent.t)
    (pull_requests : list PullRequest) (candidate_projects : list string)
    (w : World L) : World L :=
  match pull_requests with
  | [] => w
  | pr :: rest =>
      process_isolated post agent rest candidate_projects
        (snd (AIAgent.process_pull_request post agent pr candidate_projects w))
  end.

Definition failures_isolated {L} (post : Endpoint L) (agent : AIAgent.t) (w : World L)
    : Prop :=
  forall candidate_projects pull_requests,
    ReportExtractor.list_possible_projects (AIAgent.github_client agent) = Ok candidate_projects ->
    get_open_pull_requests (AIAgent.github_client agent) = Ok pull_requests ->
    AIAgent.run post agent w
    = (Ok tt, process_isolated post agent pull_requests candidate_projects w).

(** ** Scenarios *)

Module Scenario.

(** The pull request of [test_agent.py]. *)
Definition firefly_pr : PullRequest :=
  {| pr_number := None;
     pr_title := Some (JStr "Create 2025-annual-Hyperledger-FireFly.md");
     pr_body := Some (JStr "This PR contains the annual report. Project name: Hyperledger FireFly.");
     pr_description := None |}.

(** The same title over the shortest body with the project line. *)
Definition firefly_pr_short : PullRequest :=
  {| pr_number := None;
     pr_title := Some (JStr "Create 2025-annual-Hyperledger-FireFly.md");
     pr_body := Some (JStr "Project name: Hyperledger FireFly.");
     pr_description := None |}.

(** The [DummyEngine] of [test_agent.py]. *)
Definition dummy_engine : InferEngine :=
  fun _ _ => Ok (Some "Hyperledger FireFly").

Definition titled (title : string) : PullRequest :=
  {| pr_number := None;
     pr_title := Some (JStr title);
     pr_body := None;
     pr_description := None |}.

Definition schedule_file : FileInfo :=
  {| f_type := "file";
     f_name := Some "2025-schedule.md";
     f_url := Some "http://dummy-url/schedule.md" |}.

Definition named_file (name : string) : FileInfo :=
  {| f_type := "file"; f_name := Some name; f_url := Some name |}.

(** A client in the manner of the test's [DummyClient]: the schedule has
    the given content, every other file is empty, the repository lists
    [files], and no pull request is open. *)
Definition schedule_client (content : string) (files : list FileInfo) : GitHubClient :=
  {| get_open_pull_requests := Ok [];
     list_repo_files := Ok files;
     get_file_content := fun f =>
       if decide (f_url f = f_url schedule_file) then Ok content else Ok EmptyString;
     get_file_by_path := fun _ => Ok schedule_file;
     get_pr_files := fun _ => Ok [] |}.

(** A client whose schedule document is missing. *)
Definition no_schedule_client (files : list FileInfo) : GitHubClient :=
  {| get_open_pull_requests := Ok [];
     list_repo_files := Ok files;
     get_file_content := fun _ => Ok EmptyString;
     get_file_by_path := fun _ => Raise (HTTPError 404);
     get_pr_files := fun _ => Ok [] |}.

(** The schedule of [test_agent.py]. *)
Definition test_schedule : string :=
  "| Project | Status |" +:+ nl +:+
  "|---------|--------|" +:+ nl +:+
  "| Hyperledger FireFly | Active |" +:+ nl +:+
  "| ProjectY | Active |" +:+ nl +:+
  "| OpenProject | Inactive |".

(** The schedule of the specification's example. *)
Definition plain_schedule : string :=
  "Project | Status" +:+ nl +:+
  "Hyperledger FireFly | Active" +:+ nl +:+
  "ProjectY | Active".

(** A table whose header is written in lower case. *)
Definition lowercase_schedule : string :=
  "| project | status |" +:+ nl +:+
  "| foo | active |".

(** A schedule document without a table: a line of prose with the word
    "Project" and a pipe in it. *)
Definition prose_schedule : string :=
  "Project updates are due each quarter | see the calendar".

(** An endpoint that answers from the prompt alone and counts its calls. *)
Definition echo : Endpoint nat :=
  fun _ payload calls =>
    (Ok ("  seen " +:+ Str.of_nat (Str.len (p_prompt payload)) +:+ " characters  "),
     S calls).

(** The same endpoint, failing on its call number [n] (from 0). *)
Definition failing_at (n : nat) : Endpoint nat :=
  fun url payload calls =>
    if Nat.eqb calls n then (Raise (HTTPError 503), S calls) else echo url payload calls.

Definition fresh : World nat :=
  {| out_file := None; sink_log := []; llm := 0 |}.

Definition engine : AnalysisEngine.t :=
  AnalysisEngine.init "http://localhost:11434/" "llama3".

(** Two open pull requests; listing the files of the first one fails. *)
Definition projecty_pr : PullRequest :=
  {| pr_number := Some 1%Z;
     pr_title := Some (JStr "ProjectY quarterly report");
     pr_body := Some (JStr "Metrics of the quarter.");
     pr_description := None |}.

Definition firefly_report_pr : PullRequest :=
  {| pr_number := Some 2%Z;
     pr_title := Some (JStr "Hyperledger FireFly annual report");
     pr_body := Some (JStr "The annual report.");
     pr_description := None |}.

Definition two_pr_client : GitHubClient :=
  {| get_open_pull_requests := Ok [projecty_pr; firefly_report_pr];
     list_repo_files := Ok [];
     get_file_content := fun f =>
       if decide (f_url f = f_url schedule_file) then Ok test_schedule else Ok EmptyString;
     get_file_by_path := fun _ => Ok schedule_file;
     get_pr_files := fun number =>
       if decide (number = 1%Z) then Raise (HTTPError 502) else Ok [] |}.

Definition two_pr_agent : AIAgent.t :=
  {| AIAgent.github_client := two_pr_client; AIAgent.analysis_engine := engine |}.

End Scenario.

(** ** Notions the further properties use *)

(** Every capturing element of a pattern is a class within [p]. *)
Definition captures_within (p : ascii -> bool) (e : Re.elem) : Prop :=
  match e with
  | Re.Cls q _ true => forall c, q c = true -> p c = true
  | _ => True
  end.

(** A project identifier in normal form: not empty, and left as it is by
    [str.lower] and by [str.strip]. *)
Definition normalized (x : string) : Prop :=
  x <> EmptyString /\ Str.lower x = x /\ Str.strip x = x.

(** The test of [filter_reports] on an entry with a name: the entry is a
    file and the pattern of the project name is found in its name. *)
Definition is_report_file (project_name : string) (f : FileInfo) : bool :=
  Str.eqb (f_type f) "file"
  && ReportExtractor.name_matches project_name (default EmptyString (f_name f)).

(** Every entry of type "file" has a name, as the entries of the contents
    API do. *)
Definition files_are_named (files : list FileInfo) : Prop :=
  forall f, In f files -> f_type f = "file" -> f_name f <> None.

(** [AnalysisEngine.construct_prompt(reports)] *)
Definition prompt_header : string :=
  "You are a project health evaluation expert. Analyze the following " +:+
  "project reports to determine the overall health of the project. Retain all important attributes such as maintenance history, contributor activity, trends, and risks." +:+
  nl +:+ nl +:+ "Below are the reports:" +:+ nl +:+ nl.

Definition prompt_closing : string :=
  "Please summarize your evaluation and provide actionable recommendations.".

(** What one turn of the loop adds: [f"Report {idx}:\n{report}\n\n"]. *)
Definition report_section (idx : nat) (report : string) : string :=
  "Report " +:+ Str.of_nat idx +:+ ":" +:+ nl +:+ report +:+ nl +:+ nl.

(** [for idx, report in enumerate(reports, 1): prompt += ...], from index
    [idx] on. *)
Fixpoint add_report_sections (prompt : string) (idx : nat) (reports : list string)
    : string :=
  match reports with
  | [] => prompt
  | report :: rest =>
      add_report_sections (prompt +:+ report_section idx report) (S idx) rest
  end.

Definition construct_prompt (reports : list string) : string :=
  add_report_sections prompt_header 1 reports +:+ prompt_closing.

(** [s] does not end with the character [ch]. *)
Definition not_ending_with (ch : ascii) (s : string) : Prop :=
  forall s', s <> s' +:+ String ch EmptyString.

(** [s] neither starts nor ends with whitespace. *)
Definition trimmed (s : string) : Prop :=
  (forall c s', s = String c s' -> Char.isspace c = false)
  /\ (forall s' c, s = s' +:+ String c EmptyString -> Char.isspace c = false).

(** A computation keeps a property of the world, however it ends. *)
Definition keeps {L A} (P : World L -> Prop) (m : M L A) : Prop :=
  forall w, P w -> P (snd (m w)).

(** A content written under the name of a candidate that occurs in the
    text of one of the pull requests. *)
Definition written_for (candidate_projects : list string)
    (pull_requests : list PullRequest) (entry : string) : Prop :=
  exists project content pr,
    entry = project +:+ ":" +:+ nl +:+ nl +:+ content +:+ nl
    /\ project <> EmptyString
    /\ In project candidate_projects
    /\ In pr pull_requests
    /\ occurs_in project (ReportExtractor.pr_text pr).

(** The log of writes has grown from [w0]'s by such contents only. *)
Definition grown_from {L} (candidate_projects : list string)
    (pull_requests : list PullRequest) (w0 w : World L) : Prop :=
  exists added,
    sink_log w = sink_log w0 ++ added
    /\ Forall (written_for candidate_projects pull_requests) added.

(** An agent on a repository with the schedule of [test_agent.py], no
    report file, and one open pull request without changed files. *)
Definition firefly_agent : AIAgent.t :=
  {| AIAgent.github_client :=
       {| get_open_pull_requests := Ok [Scenario.firefly_report_pr];
          list_repo_files := Ok [];
          get_file_content := get_file_content Scenario.two_pr_client;
          get_file_by_path := get_file_by_path Scenario.two_pr_client;
          get_pr_files := fun _ => Ok [] |};
     AIAgent.analysis_engine := Scenario.engine |}.

(** ** GitHubClient.list_repo_files

    The recursion of [list_repo_files] over the directories of the
    repository, on top of the one request it makes per directory. *)

Module GitHub.

(** An item of a directory listing of the contents API: the entry as the
    extractor reads it later on, with its [item["path"]]. *)
Record Item := {
  i_path : string;
  i_info : FileInfo }.

(** [item["type"]] *)
Definition i_type (it : Item) : string := f_type (i_info it).

(** [requests.get(".../contents/{path}")], [raise_for_status()] and
    [response.json()]: the items of the directory at [path]. *)
Definition Contents := string -> Res (list Item).

(** [for item in items], with [list_sub] for the recursive call; [None]
    when the recursion has not returned within the fuel. *)
Fixpoint collect_files (list_sub : string -> option (Res (list Item)))
    (items : list Item) (files : list Item) : option (Res (list Item)) :=
  match items with
  | [] => Some (Ok files)
  | item :: rest =>
      if Str.eqb (i_type item) "file" then collect_files list_sub rest (files ++ [item])
      else if Str.eqb (i_type item) "dir" then
        match list_sub (i_path item) with
        | Some (Ok sub_files) => collect_files list_sub rest (files ++ sub_files)
        | Some (Raise e) => Some (Raise e)
        | None => None
        end
      else collect_files list_sub rest files
  end.

(** [list_repo_files(path)], with [fuel] bounding the depth of the
    recursion. *)
Fixpoint list_repo_files (contents : Contents) (fuel : nat) (path : string)
    : option (Res (list Item)) :=
  match fuel with
  | 0 => None
  | S fuel' =>
      match contents path with
      | Ok items => collect_files (list_repo_files contents fuel') items []
      | Raise e => Some (Raise e)
      end
  end.

(** The directories get shallower on the way down: [rank] bounds how deep
    the tree is below a path. *)
Definition ranked (contents : Contents) (rank : string -> nat) : Prop :=
  forall path items item,
    contents path = Ok items -> In item items -> i_type item = "dir" ->
    rank (i_path item) < rank path.

(** A small repository: two files and a link at the root, a directory
    [docs] with a file and a directory [docs/img] with one file. *)
Definition item (type path : string) : Item :=
  {| i_path := path;
     i_info := {| f_type := type; f_name := Some path; f_url := Some path |} |}.

Definition small_repo : Contents :=
  fun path =>
    if decide (path = EmptyString) then
      Ok [item "file" "README.md"; item "dir" "docs"; item "symlink" "latest";
          item "file" "LICENSE"]
    else if decide (path = "docs") then
      Ok [item "file" "docs/a.md"; item "dir" "docs/img"]
    else if decide (path = "docs/img") then
      Ok [item "file" "docs/img/p.png"]
    else Raise (HTTPError 404).

Definition small_repo_rank (path : string) : nat :=
  if decide (path = EmptyString) then 2
  else if decide (path = "docs") then 1
  else 0.

(** What one item of a listing contributes to the result: itself when it
    is a file, the files listed below it when it is a directory, nothing
    otherwise. *)
Definition contributes (contents : Contents) (fuel : nat) (it : Item)
    (part : list Item) : Prop :=
  (i_type it = "file" /\ part = [it])
  \/ (i_type it <> "file" /\ i_type it = "dir"
      /\ list_repo_files contents fuel (i_path it) = Some (Ok part))
  \/ (i_type it <> "file" /\ i_type it <> "dir" /\ part = []).

End GitHub.

(** ** Correlation over any alphabet

    [determine_project_for_pr] once more, over strings of the characters
    of any alphabet [C]. What it does to a text ([pr.get], the f-string,
    [in]) does not depend on the characters; [str.lower] does, and is
    given, with the characters of the code's own literals. *)

Module Wide.

Section Alphabet.
Context {C : Type} `{EqDecision C}.
Variable of_ascii : ascii -> C.
Variable lower : list C -> list C.

(** The value of a text field of a pull request's JSON: [null] or a string. *)
Inductive text :=
| Null
| Text (s : list C).

(** A pull request, as the dict [pr]; [None] is an absent key. *)
Record PullRequest := {
  number : option Z;
  title : option text;
  body : option text;
  description : option text }.

(** A literal of the code. *)
Definition literal (s : string) : list C := map of_ascii (list_ascii_of_string s).

(** [pr.get(key, "")] *)
Definition get_or_empty (field : option text) : text :=
  match field with
  | Some v => v
  | None => Text []
  end.

(** A value inside an f-string: [None] prints as ["None"]. *)
Definition fmt (v : text) : list C :=
  match v with
  | Null => literal "None"
  | Text s => s
  end.

(** [hay.startswith(needle)] *)
Fixpoint startswith (needle hay : list C) : bool :=
  match needle, hay with
  | [], _ => true
  | _ :: _, [] => false
  | a :: n', b :: h' => bool_decide (a = b) && startswith n' h'
  end.

(** [needle in hay] *)
Fixpoint contains (needle hay : list C) : bool :=
  startswith needle hay ||
  match hay with
  | [] => false
  | _ :: h' => contains needle h'
  end.

(** The text [determine_project_for_pr] searches. *)
Definition pr_text (pr : PullRequest) : list C :=
  lower (fmt (get_or_empty (title pr)) ++ literal " " ++
         fmt (get_or_empty (body pr)) ++ literal " " ++
         fmt (get_or_empty (description pr))).

Definition determine_project_for_pr (pr : PullRequest)
    (candidate_projects : list (list C)) : option (list C) :=
  find (fun project => contains project (pr_text pr)) candidate_projects.

(** The specification's reading of the correlation: a candidate with an
    uppercase character, [isupper] telling which characters are, is never
    returned. *)
Definition uppercase_never_returned (isupper : C -> bool) : Prop :=
  forall (pr : PullRequest) (candidate_projects : list (list C)) (c : list C),
    existsb isupper c = true ->
    determine_project_for_pr pr candidate_projects <> Some c.

End Alphabet.

Arguments text C : clear implicits.
Arguments PullRequest C : clear implicits.

(** An alphabet with an uppercase letter that has no lowercase form: the
    code points U+0000..U+00FF and U+1D400, MATHEMATICAL BOLD CAPITAL A
    (category Lu, no lowercase mapping). *)
Inductive char :=
| Latin1 (c : ascii)
| BoldCapitalA.

Global Instance char_eq_dec : EqDecision char.
Proof. solve_decision. Defined.

(** [str.lower] and [str.isupper] on one character of it. *)
Definition char_lower (c : char) : char :=
  match c with
  | Latin1 a => Latin1 (Char.lower_c a)
  | BoldCapitalA => BoldCapitalA
  end.

Definition char_isupper (c : char) : bool :=
  match c with
  | Latin1 a => Char.isupper a
  | BoldCapitalA => true
  end.

(** [s.lower()] *)
Definition str_lower (s : list char) : list char := map char_lower s.

(** A title in bold mathematical capitals. *)
Definition bold_pr : PullRequest char :=
  {| number := None;
     title := Some (Text (BoldCapitalA :: literal Latin1 " annual report"));
     body := None;
     description := None |}.

End Wide.

(** The texts and pull requests of the rest of this development, as texts
    and pull requests over their characters. *)
Definition wide_text (v : json_text) : Wide.text ascii :=
  match v with
  | JNull => Wide.Null
  | JStr s => Wide.Text (list_ascii_of_string s)
  end.

Definition wide_pull_request (pr : PullRequest) : Wide.PullRequest ascii :=
  {| Wide.number := pr_number pr;
     Wide.title := wide_text <$> pr_title pr;
     Wide.body := wide_text <$> pr_body pr;
     Wide.description := wide_text <$> pr_description pr |}.

(** * Properties *)

(** ** Characters and strings *)

Lemma ascii_cases (P : ascii -> Prop) :
  (forall b0 b1 b2 b3 b4 b5 b6 b7, P (Ascii b0 b1 b2 b3 b4 b5 b6 b7)) -> forall c, P c.
Proof. intros H [b0 b1 b2 b3 b4 b5 b6 b7]. apply H. Qed.

Ltac by_char_table :=
  let c := fresh "c" in
  intro c; pattern c; apply ascii_cases;
  intros [] [] [] [] [] [] [] []; vm_compute; try reflexivity; try discriminate;
  intros; discriminate.

Lemma lower_c_not_upper : forall c, Char.isupper (Char.lower_c c) = false.
Proof. by_char_table. Qed.

Lemma space_colon_not_word_dash : forall c, Re.space_colon c = true -> Re.word_dash c = false.
Proof. by_char_table. Qed.

Lemma char_eqb_eq a b : Char.eqb a b = true <-> a = b.
Proof. apply Ascii.eqb_eq. Qed.

Lemma str_eqb_eq a b : Str.eqb a b = true <-> a = b.
Proof. apply String.eqb_eq. Qed.

Lemma str_eqb_neq a b : Str.eqb a b = false <-> a <> b.
Proof. apply String.eqb_neq. Qed.

Lemma app_cons c a b : String c a +:+ b = String c (a +:+ b).
Proof. reflexivity. Qed.

Lemma app_empty_l a : EmptyString +:+ a = a.
Proof. reflexivity. Qed.

Lemma app_empty_r a : a +:+ EmptyString = a.
Proof. induction a as [|c a IH]; [reflexivity|]. rewrite app_cons, IH. reflexivity. Qed.

Lemma app_assoc_str a b c : (a +:+ b) +:+ c = a +:+ (b +:+ c).
Proof. induction a as [|x a IH]; [reflexivity|]. rewrite !app_cons, IH. reflexivity. Qed.

Lemma all_app p a b : Str.all p (a +:+ b) = Str.all p a && Str.all p b.
Proof.
  induction a as [|x a IH]; [reflexivity|].
  rewrite app_cons. simpl. rewrite IH. apply andb_assoc.
Qed.

Lemma any_app p a b : Str.any p (a +:+ b) = Str.any p a || Str.any p b.
Proof.
  induction a as [|x a IH]; [reflexivity|].
  rewrite app_cons. simpl. rewrite IH. apply orb_assoc.
Qed.

Lemma any_all_false p s : Str.all (fun c => negb (p c)) s = true -> Str.any p s = false.
Proof.
  induction s as [|x s IH]; [reflexivity|]. simpl.
  intros [Hx Hs]%andb_true_iff. rewrite (IH Hs).
  apply negb_true_iff in Hx. rewrite Hx. reflexivity.
Qed.

Lemma lower_has_no_upper s : Str.any Char.isupper (Str.lower s) = false.
Proof.
  induction s as [|x s IH]; [reflexivity|]. simpl.
  rewrite lower_c_not_upper, IH. reflexivity.
Qed.

Lemma startswith_spec needle hay :
  Str.startswith needle hay = true <-> exists after, hay = needle +:+ after.
Proof.
  revert hay. induction needle as [|a n IH]; intros hay.
  - simpl. split; [intros _; exists hay; reflexivity | reflexivity].
  - destruct hay as [|b h]; simpl.
    + split; [discriminate | intros [after H]; discriminate].
    + rewrite andb_true_iff, char_eqb_eq, IH. split.
      * intros [-> [after ->]]. exists after. reflexivity.
      * intros [after H]. rewrite app_cons in H. injection H as -> ->. eauto.
Qed.

Lemma contains_spec needle hay :
  Str.contains needle hay = true <-> occurs_in needle hay.
Proof.
  unfold occurs_in. induction hay as [|b h IH].
  - simpl. rewrite orb_false_r, startswith_spec. split.
    + intros [after H]. exists EmptyString, after. exact H.
    + intros [[|x before] [after H]]; [eauto|discriminate].
  - simpl. rewrite orb_true_iff, startswith_spec, IH. split.
    + intros [[after H] | [before [after H]]].
      * exists EmptyString, after. exact H.
      * exists (String b before), after. rewrite app_cons, H. reflexivity.
    + intros [[|x before] [after H]].
      * left. eauto.
      * right. rewrite app_cons in H. injection H as -> ->. eauto.
Qed.

Lemma occurs_any p needle hay :
  occurs_in needle hay -> Str.any p needle = true -> Str.any p hay = true.
Proof.
  intros [before [after ->]] H.
  rewrite !any_app, H, orb_true_r. reflexivity.
Qed.

(** ** The regex fragment *)

(** A greedy repetition takes a whole run of its class when the rest of the
    pattern matches after the run. *)
Lemma rep_takes_run {R} p (k : string -> string -> option R) run :
  forall taken rest r,
    Str.all p run = true ->
    match rest with String c _ => p c = false | EmptyString => True end ->
    k (taken +:+ run) rest = Some r ->
    Re.rep p k taken (run +:+ rest) = Some r.
Proof.
  induction run as [|a run IH]; intros taken rest r Hall Hhead Hk.
  - rewrite app_empty_r in Hk. rewrite app_empty_l.
    destruct rest as [|c rest]; simpl; [exact Hk|]. rewrite Hhead. exact Hk.
  - simpl in Hall. apply andb_true_iff in Hall as [Ha Hall].
    rewrite app_cons. simpl. rewrite Ha.
    rewrite (IH (taken +:+ String a EmptyString) rest r Hall Hhead); [reflexivity|].
    rewrite app_assoc_str. exact Hk.
Qed.

(** When what follows a repetition cannot fail, neither can the repetition,
    and group 1 is what the continuation makes it. *)
Lemma rep_total {R} p (k : string -> string -> option (R * string)) g :
  (forall taken rest, exists x, k taken rest = Some (g, x)) ->
  forall s taken, exists x, Re.rep p k taken s = Some (g, x).
Proof.
  intros Hk. induction s as [|c s IH]; intros taken; simpl; [apply Hk|].
  destruct (p c); [|apply Hk].
  destruct (IH (taken +:+ String c EmptyString)) as [x ->]. eauto.
Qed.

(** A repetition that matched consumed a run of its class, after which
    the rest of the pattern matched. *)
Lemma rep_inv {R} p (k : string -> string -> option R) :
  forall s taken r,
    Re.rep p k taken s = Some r ->
    exists run rest,
      s = run +:+ rest /\ Str.all p run = true /\ k (taken +:+ run) rest = Some r.
Proof.
  induction s as [|c s IH]; intros taken r; simpl.
  - intros Hk. exists EmptyString, EmptyString. rewrite (app_empty_r taken).
    split; [reflexivity | split; [reflexivity | exact Hk]].
  - assert (k taken (String c s) = Some r ->
            exists run rest, String c s = run +:+ rest /\ Str.all p run = true
                             /\ k (taken +:+ run) rest = Some r) as Hstop.
    { intros Hk. exists EmptyString, (String c s). rewrite (app_empty_r taken).
      split; [reflexivity | split; [reflexivity | exact Hk]]. }
    destruct (p c) eqn:Hc; [|exact Hstop].
    destruct (Re.rep p k (taken +:+ String c EmptyString) s) as [r'|] eqn:Hrep;
      [|exact Hstop].
    intros [= <-]. destruct (IH _ _ Hrep) as [run [rest [-> [Hall Hk]]]].
    exists (String c run), rest. rewrite app_cons. simpl. rewrite Hc, Hall.
    rewrite app_assoc_str in Hk. split; [reflexivity | split; [reflexivity | exact Hk]].
Qed.

(** What holds of every result of the continuation holds of the result
    of the repetition. *)
Lemma rep_result {R} p (k : string -> string -> option R) (Q : R -> Prop) :
  (forall taken rest r, k taken rest = Some r -> Q r) ->
  forall s taken r, Re.rep p k taken s = Some r -> Q r.
Proof.
  intros Hk. induction s as [|c s IH]; intros taken r; simpl; [apply Hk|].
  destruct (p c); [|apply Hk].
  destruct (Re.rep p k (taken +:+ String c EmptyString) s) as [r'|] eqn:Hrep;
    [|apply Hk].
  intros [= <-]. exact (IH _ _ Hrep).
Qed.

(** The title pattern on a title that starts with a token and a separator. *)
Lemma title_re_leading_token token sep rest :
  token <> EmptyString ->
  Str.all Re.word_dash token = true ->
  Re.space_colon sep = true ->
  Re.group1 (Re.re_match ReportExtractor.title_re (token +:+ String sep rest)) = Some token.
Proof.
  intros Hne Hall Hsep. destruct token as [|c token]; [congruence|].
  simpl in Hall. apply andb_true_iff in Hall as [Hc Hall].
  unfold Re.re_match, ReportExtractor.title_re. rewrite app_cons.
  cbn [Re.match_here]. rewrite Hc.
  assert (exists x, Re.match_here [Re.Cls Re.space_colon Re.Plus false]
                      (true && Str.is_empty (String c EmptyString +:+ token))
                      (Some (String c EmptyString +:+ token)) (String sep rest)
                    = Some (Some (String c token), x)) as [x Hx].
  { cbn [Re.match_here]. rewrite Hsep. apply rep_total. intros taken r. eauto. }
  rewrite (rep_takes_run Re.word_dash _ token _ (String sep rest)
             (Some (String c token), x) Hall).
  - reflexivity.
  - apply space_colon_not_word_dash, Hsep.
  - exact Hx.
Qed.

(** Conversely, a title the pattern matches starts with its group 1, made
    of word characters and hyphens, and a separator after it. *)
Lemma title_re_match_inv title token :
  Re.group1 (Re.re_match ReportExtractor.title_re title) = Some token ->
  exists sep rest,
    title = token +:+ String sep rest
    /\ token <> EmptyString
    /\ Str.all Re.word_dash token = true
    /\ Re.space_colon sep = true.
Proof.
  unfold Re.re_match, ReportExtractor.title_re.
  destruct title as [|c s]; [discriminate|].
  cbn [Re.match_here]. destruct (Re.word_dash c) eqn:Hc; [|discriminate].
  match goal with |- Re.group1 (Re.rep _ ?k _ _) = _ -> _ => set (k0 := k) end.
  destruct (Re.rep Re.word_dash k0 (String c EmptyString) s) as [r|] eqn:Hrep;
    [|discriminate].
  apply rep_inv in Hrep as [run [rest [-> [Hrun Hk]]]].
  subst k0. cbn [Re.match_here] in Hk.
  destruct rest as [|sep rest]; [discriminate|].
  destruct (Re.space_colon sep) eqn:Hsep; [|discriminate].
  apply (rep_result _ _ (fun r => fst r = Some (String c EmptyString +:+ run))) in Hk;
    [|intros taken rest0 r0 [= <-]; reflexivity].
  destruct r as [g x]. cbn [fst] in Hk. subst g. cbn [Re.group1].
  intros [= <-]. exists sep, rest. rewrite !app_cons, !app_empty_l.
  split; [reflexivity|]. split; [discriminate|]. simpl. rewrite Hc, Hrun. auto.
Qed.

(** ** Project-name extraction *)

(** C8. When the title starts with a token of word characters and hyphens
    followed by whitespace or a colon, which is what matching
    [^([\w\-]+)[\s:]+] means, and the token is not "create" in any case,
    [extract_project_name_from_pr] returns the token as written, whatever
    the body and the engine are, and does not call the engine. *)
Theorem title_token_returned_unchanged :
  forall (pr : PullRequest) (llm_engine : option InferEngine) (token : string)
         (sep : ascii) (rest : string),
    pr_title pr = Some (JStr (token +:+ String sep rest)) ->
    token <> EmptyString ->
    Str.all Re.word_dash token = true ->
    Re.space_colon sep = true ->
    Str.lower token <> "create" ->
    ReportExtractor.extract_project_name_from_pr pr llm_engine = (Ok (Some token), []).
Proof.
  intros pr llm_engine token sep rest Htitle Hne Hall Hsep Hcreate.
  unfold ReportExtractor.extract_project_name_from_pr. rewrite Htitle. cbn [get_or_empty]. cbv beta iota zeta.
  rewrite (title_re_leading_token token sep rest Hne Hall Hsep).
  unfold ReportExtractor.accepted.
  apply str_eqb_neq in Hcreate. rewrite Hcreate.
  destruct token; [congruence|]. reflexivity.
Qed.

Lemma title_token_returned_unchanged_witness :
  ReportExtractor.extract_project_name_from_pr
    (Scenario.titled "FireFly-SDK: quarterly report") (Some Scenario.dummy_engine)
  = (Ok (Some "FireFly-SDK"), []).
Proof.
  apply (title_token_returned_unchanged _ _ "FireFly-SDK" ":"%char " quarterly report").
  - reflexivity.
  - discriminate.
  - reflexivity.
  - reflexivity.
  - vm_compute. discriminate.
Defined.

(** C3. On the pull request of the repository's test, the title token
    "Create" is rejected, the body pattern matches, and the value returned
    is the group the pattern captured, "Hyperledger": the class [[\w\-]]
    stops at the space before "FireFly". The engine is not called. The
    same holds when the body is the project line alone. *)
Theorem firefly_extraction_stops_at_space :
  Re.group1 (Re.re_match ReportExtractor.title_re "Create 2025-annual-Hyperledger-FireFly.md")
    = Some "Create"
  /\ ReportExtractor.accepted (Some "Create") = None
  /\ ReportExtractor.extract_project_name_from_pr Scenario.firefly_pr (Some Scenario.dummy_engine)
     = (Ok (Some "Hyperledger"), [])
  /\ ReportExtractor.extract_project_name_from_pr Scenario.firefly_pr_short (Some Scenario.dummy_engine)
     = (Ok (Some "Hyperledger"), []).
Proof. repeat split; vm_compute; reflexivity. Qed.

(** ** Correlation *)

Lemma find_first_hit {A} (f : A -> bool) (l : list A) :
  (exists x, In x l /\ f x = true) -> exists x, find f l = Some x.
Proof.
  intros [x [Hin Hx]]. destruct (find f l) as [y|] eqn:Hfind; [eauto|].
  rewrite (find_none f l Hfind x Hin) in Hx. discriminate.
Qed.

(** C6. The text searched is the title, the body and the description,
    joined by single spaces and lowercased. When some candidate occurs in
    it as a substring, [determine_project_for_pr] returns a candidate that
    does; it returns [None] exactly when no candidate occurs in it. *)
Theorem correlation_returns_matching_candidate :
  forall (pr : PullRequest) (candidates : list string),
    let blob := Str.lower (fmt (get_or_empty (pr_title pr)) +:+ " " +:+
                           fmt (get_or_empty (pr_body pr)) +:+ " " +:+
                           fmt (get_or_empty (pr_description pr))) in
    ((exists c, In c candidates /\ occurs_in c blob) ->
     exists c, ReportExtractor.determine_project_for_pr pr candidates = Some c
               /\ In c candidates /\ occurs_in c blob)
    /\ (ReportExtractor.determine_project_for_pr pr candidates = None <->
        forall c, In c candidates -> ~ occurs_in c blob).
Proof.
  intros pr candidates blob.
  unfold ReportExtractor.determine_project_for_pr.
  change (ReportExtractor.pr_text pr) with blob. split.
  - intros [c [Hin Hocc]].
    destruct (find_first_hit (fun project => Str.contains project blob) candidates)
      as [hit Hhit].
    { exists c. split; [exact Hin|]. apply contains_spec, Hocc. }
    exists hit. split; [exact Hhit|].
    apply find_some in Hhit as [Hin' Hc]. split; [exact Hin'|].
    apply contains_spec, Hc.
  - split.
    + intros Hnone c Hin Hocc. apply contains_spec in Hocc.
      rewrite (find_none _ _ Hnone c Hin) in Hocc. discriminate.
    + intros Hno.
      destruct (find (fun project => Str.contains project blob) candidates)
        as [hit|] eqn:Hfind; [|reflexivity].
      apply find_some in Hfind as [Hin Hc]. apply contains_spec in Hc.
      destruct (Hno hit Hin Hc).
Qed.

Lemma correlation_returns_matching_candidate_witness :
  exists c,
    ReportExtractor.determine_project_for_pr
      (Scenario.titled "Annual review: Hyperledger FireFly")
      ["projecty"; "hyperledger firefly"] = Some c
    /\ In c ["projecty"; "hyperledger firefly"].
Proof.
  destruct (proj1 (correlation_returns_matching_candidate
                     (Scenario.titled "Annual review: Hyperledger FireFly")
                     ["projecty"; "hyperledger firefly"]))
    as [c [Hc [Hin _]]].
  - exists "hyperledger firefly". split; [right; left; reflexivity|].
    apply contains_spec. vm_compute. reflexivity.
  - exists c. split; assumption.
Defined.

(** On the characters U+0000..U+00FF, where [str.lower] changes every
    uppercase character, a candidate with an uppercase character is never
    the value of [determine_project_for_pr]. *)
Theorem latin1_uppercase_candidate_never_returned :
  forall (pr : PullRequest) (candidates : list string) (c : string),
    Str.any Char.isupper c = true ->
    ReportExtractor.determine_project_for_pr pr candidates <> Some c.
Proof.
  intros pr candidates c Hupper Hfind.
  unfold ReportExtractor.determine_project_for_pr in Hfind.
  apply find_some in Hfind as [_ Hc]. apply contains_spec in Hc.
  pose proof (occurs_any Char.isupper c _ Hc Hupper) as Hany.
  unfold ReportExtractor.pr_text in Hany.
  rewrite lower_has_no_upper in Hany. discriminate.
Qed.

Lemma latin1_uppercase_candidate_never_returned_witness :
  Str.contains (Str.lower "FireFly")
    (ReportExtractor.pr_text (Scenario.titled "Annual review: Hyperledger FireFly")) = true
  /\ ReportExtractor.determine_project_for_pr
       (Scenario.titled "Annual review: Hyperledger FireFly") ["FireFly"] <> Some "FireFly".
Proof.
  split; [vm_compute; reflexivity|].
  apply (latin1_uppercase_candidate_never_returned _ _ "FireFly"). reflexivity.
Defined.

(** ** Correlation over any alphabet *)

Lemma wide_startswith_in {C} `{EqDecision C} (needle hay : list C) :
  Wide.startswith needle hay = true -> forall u, In u needle -> In u hay.
Proof.
  revert hay. induction needle as [|a needle IH]; intros hay Hs u Hin; [destruct Hin|].
  destruct hay as [|b hay]; [discriminate|]. cbn [Wide.startswith] in Hs.
  apply andb_true_iff in Hs as [Hab Hs]. apply bool_decide_eq_true in Hab as <-.
  destruct Hin as [<- | Hin]; [left; reflexivity | right; exact (IH hay Hs u Hin)].
Qed.

(** A character of a text that occurs in another occurs in that one. *)
Lemma wide_contains_in {C} `{EqDecision C} (needle hay : list C) :
  Wide.contains needle hay = true -> forall u, In u needle -> In u hay.
Proof.
  induction hay as [|b hay IH]; intros Hc u Hin.
  - cbn [Wide.contains] in Hc. rewrite orb_false_r in Hc.
    exact (wide_startswith_in needle [] Hc u Hin).
  - cbn [Wide.contains] in Hc. apply orb_true_iff in Hc as [Hs | Hc].
    + exact (wide_startswith_in needle (b :: hay) Hs u Hin).
    + right. exact (IH Hc u Hin).
Qed.

(** On the characters U+0000..U+00FF the correlation over any alphabet is
    the correlation of [ReportExtractor]. *)
Lemma wide_startswith_latin1 (needle hay : string) :
  Wide.startswith (list_ascii_of_string needle) (list_ascii_of_string hay)
  = Str.startswith needle hay.
Proof.
  revert hay. induction needle as [|a needle IH]; intros [|b hay]; try reflexivity.
  cbn [list_ascii_of_string Wide.startswith Str.startswith]. rewrite IH. f_equal.
  unfold Char.eqb. destruct (Ascii.eqb a b) eqn:Hab.
  - apply Ascii.eqb_eq in Hab. apply bool_decide_eq_true. exact Hab.
  - apply Ascii.eqb_neq in Hab. apply bool_decide_eq_false. exact Hab.
Qed.

Lemma wide_contains_latin1 (needle hay : string) :
  Wide.contains (list_ascii_of_string needle) (list_ascii_of_string hay)
  = Str.contains needle hay.
Proof.
  induction hay as [|b hay IH].
  - pose proof (wide_startswith_latin1 needle EmptyString) as Hs.
    cbn [list_ascii_of_string] in *. cbn [Wide.contains Str.contains].
    rewrite Hs. reflexivity.
  - cbn [Str.contains]. rewrite <- IH, <- wide_startswith_latin1. reflexivity.
Qed.

Lemma list_ascii_of_append (a b : string) :
  list_ascii_of_string (a +:+ b) = list_ascii_of_string a ++ list_ascii_of_string b.
Proof. induction a as [|c a IH]; [reflexivity|]. cbn. rewrite <- IH. reflexivity. Qed.

Lemma list_ascii_of_lower (s : string) :
  list_ascii_of_string (Str.lower s) = map Char.lower_c (list_ascii_of_string s).
Proof. induction s as [|c s IH]; [reflexivity|]. cbn. rewrite IH. reflexivity. Qed.

Lemma wide_fmt_latin1 (field : option json_text) :
  Wide.fmt id (Wide.get_or_empty (wide_text <$> field))
  = list_ascii_of_string (fmt (get_or_empty field)).
Proof.
  destruct field as [[|s]|]; cbn; try reflexivity.
Qed.

Lemma wide_correlation_on_latin1 (pr : PullRequest) (candidate_projects : list string) :
  Wide.determine_project_for_pr id (map Char.lower_c) (wide_pull_request pr)
    (map list_ascii_of_string candidate_projects)
  = list_ascii_of_string <$> ReportExtractor.determine_project_for_pr pr candidate_projects.
Proof.
  unfold Wide.determine_project_for_pr, ReportExtractor.determine_project_for_pr.
  assert (Wide.pr_text id (map Char.lower_c) (wide_pull_request pr)
          = list_ascii_of_string (ReportExtractor.pr_text pr)) as ->.
  { unfold Wide.pr_text, ReportExtractor.pr_text, wide_pull_request.
    cbn [Wide.title Wide.body Wide.description].
    rewrite !wide_fmt_latin1, list_ascii_of_lower, !list_ascii_of_append. reflexivity. }
  induction candidate_projects as [|c candidate_projects IH]; [reflexivity|].
  cbn [map find]. rewrite wide_contains_latin1.
  destruct (Str.contains c (ReportExtractor.pr_text pr)); [reflexivity | exact IH].
Qed.

(** No text lowercased over [Wide.char] has an uppercase character of
    U+0000..U+00FF in it. *)
Lemma uppercase_latin1_not_lowered (a : ascii) :
  Char.isupper a = true -> forall s, ~ In (Wide.Latin1 a) (Wide.str_lower s).
Proof.
  intros Hupper s Hin. unfold Wide.str_lower in Hin.
  apply in_map_iff in Hin as [[b|] [Hb _]]; [|discriminate].
  injection Hb as <-. rewrite lower_c_not_upper in Hupper. discriminate.
Qed.

(** C10, as the code has it. Only the pull request's text is lowercased:
    whatever the alphabet and [str.lower] on it, a candidate with a
    character that occurs in no lowercased text is never the value of
    [determine_project_for_pr], whatever the pull request says. *)
Theorem unlowered_candidate_never_returned :
  forall {C : Type} `{EqDecision C} (of_ascii : ascii -> C) (lower : list C -> list C)
         (pr : Wide.PullRequest C) (candidate_projects : list (list C))
         (c : list C) (u : C),
    In u c ->
    (forall s, ~ In u (lower s)) ->
    Wide.determine_project_for_pr of_ascii lower pr candidate_projects <> Some c.
Proof.
  intros C HC of_ascii lower pr candidate_projects c u Hu Hlower Hfind.
  unfold Wide.determine_project_for_pr in Hfind.
  apply find_some in Hfind as [_ Hc].
  exact (Hlower _ (wide_contains_in _ _ Hc u Hu)).
Qed.

Lemma unlowered_candidate_never_returned_witness :
  Wide.determine_project_for_pr Wide.Latin1 Wide.str_lower
    {| Wide.number := None;
       Wide.title :=
         Some (Wide.Text (Wide.literal Wide.Latin1 "Annual review: Hyperledger FireFly"));
       Wide.body := None;
       Wide.description := None |}
    [Wide.literal Wide.Latin1 "FireFly"]
  <> Some (Wide.literal Wide.Latin1 "FireFly").
Proof.
  apply (unlowered_candidate_never_returned Wide.Latin1 Wide.str_lower _ _ _
           (Wide.Latin1 "F"%char)).
  - left. reflexivity.
  - apply uppercase_latin1_not_lowered. reflexivity.
Defined.

(** U+1D400 is an uppercase character that [str.lower] leaves as it is: a
    candidate made of it is returned for a pull request whose title has it. *)
Lemma bold_capital_candidate_is_returned :
  ~ Wide.uppercase_never_returned Wide.Latin1 Wide.str_lower Wide.char_isupper.
Proof.
  intros H.
  apply (H Wide.bold_pr [[Wide.BoldCapitalA]] [Wide.BoldCapitalA]); reflexivity.
Qed.

(** ** Report collection from a pull request *)

(** The loop over the changed files when no read yields content: it stops
    at the first read that fails, and otherwise gathers nothing. *)
Lemma contentless_files_add_nothing (github_client : GitHubClient) (pr_files : list FileInfo) :
  (forall f content,
      In f pr_files -> get_file_content github_client f = Ok content ->
      content = EmptyString) ->
  forall reports,
    for_each (fun reports file_info =>
                content ← get_file_content github_client file_info;
                Ok (if Str.truthy content then reports ++ [content] else reports))
             pr_files reports
    = match first_read_failure github_client pr_files with
      | Some e => Raise e
      | None => Ok reports
      end.
Proof.
  induction pr_files as [|f pr_files IH]; intros Hempty reports; [reflexivity|].
  cbn [for_each first_read_failure].
  destruct (get_file_content github_client f) as [content|e] eqn:Hread; [|reflexivity].
  rewrite (Hempty f content (or_introl eq_refl) Hread). simpl.
  apply IH. intros f' content' Hin. apply Hempty. right. exact Hin.
Qed.

(** C4, as the code has it. When no changed file yields non-empty content,
    [extract_reports_from_pr] raises the failure of listing the changed
    files, or of the first changed file that cannot be read, if there is
    one; otherwise it returns one report, the body and the description
    joined by a newline and stripped of surrounding whitespace, or no
    report when that text is empty. The title is no part of it. *)
Theorem text_report_is_body_and_description :
  forall (pr : PullRequest) (github_client : GitHubClient),
    no_nonempty_file_content pr github_client ->
    let content := Str.strip (fmt (get_or_empty (pr_body pr)) +:+ nl +:+
                              fmt (get_or_empty (pr_description pr))) in
    ReportExtractor.extract_reports_from_pr pr github_client
    = match first_file_failure pr github_client with
      | Some e => Raise e
      | None => Ok (if Str.truthy content then [content] else [])
      end.
Proof.
  intros pr github_client Hfiles content.
  unfold ReportExtractor.extract_reports_from_pr, first_file_failure,
    no_nonempty_file_content in *.
  change (ReportExtractor.text_report pr) with content.
  destruct (pr_number pr) as [number|].
  - destruct (get_pr_files github_client number) as [pr_files|e] eqn:Hlist; [|reflexivity].
    simpl. rewrite contentless_files_add_nothing.
    + destruct (first_read_failure github_client pr_files); [reflexivity|]. simpl.
      destruct (Str.truthy content); reflexivity.
    + intros f c Hin Hread. exact (Hfiles number pr_files f c eq_refl Hlist Hin Hread).
  - simpl. destruct (Str.truthy content); reflexivity.
Qed.

Lemma text_report_is_body_and_description_witness :
  ReportExtractor.extract_reports_from_pr Scenario.firefly_report_pr
    (Scenario.schedule_client Scenario.test_schedule [])
  = Ok ["The annual report."].
Proof.
  refine (text_report_is_body_and_description Scenario.firefly_report_pr
            (Scenario.schedule_client Scenario.test_schedule []) _).
  intros number pr_files f content _ Hlist Hin.
  injection Hlist as <-. destruct Hin.
Defined.

(** A pull request with a title and nothing else has no changed file with
    content and a non-empty title, and yet no report is returned. *)
Lemma title_alone_yields_no_report :
  ~ synthetic_report_has_title (Scenario.titled "Fix build") (Scenario.no_schedule_client []).
Proof.
  unfold synthetic_report_has_title. intros H.
  specialize (H I). vm_compute in H. discriminate.
Qed.

(** ** Candidate discovery from the schedule *)

Lemma dash_pipe_not_space : forall c, Re.dash_pipe c = true -> Char.isspace c = false.
Proof. by_char_table. Qed.

Lemma space_not_dash_pipe : forall c, Char.isspace c = true -> Re.dash_pipe c = false.
Proof. by_char_table. Qed.

Lemma head_outside p q s :
  (forall c, q c = true -> p c = false) ->
  Str.all q s = true ->
  match s with String c _ => p c = false | EmptyString => True end.
Proof.
  intros Hpq. destruct s as [|c s]; [auto|]. simpl.
  intros [Hc _]%andb_true_iff. apply Hpq, Hc.
Qed.

(** [^\s*[-|]+\s*$] matches the lines made of hyphens and pipes, at least
    one, between whitespace. *)
Lemma separator_row_re_spec row :
  Re.matched (Re.re_match ReportExtractor.separator_row_re row) = true
  <-> exists before core after,
        row = before +:+ core +:+ after
        /\ Str.all Char.isspace before = true
        /\ core <> EmptyString /\ Str.all Re.dash_pipe core = true
        /\ Str.all Char.isspace after = true.
Proof.
  unfold Re.re_match, ReportExtractor.separator_row_re. cbn [Re.match_here].
  match goal with |- Re.matched (Re.rep _ ?k _ _) = _ <-> _ => set (k1 := k) end.
  split.
  - destruct (Re.rep Char.isspace k1 EmptyString row) as [r|] eqn:Hrep; [|discriminate].
    intros _. apply rep_inv in Hrep as [before [rest1 [-> [Hbefore Hk1]]]].
    subst k1. cbn [Re.match_here] in Hk1.
    destruct rest1 as [|c rest1]; [discriminate|].
    destruct (Re.dash_pipe c) eqn:Hc; [|discriminate].
    apply rep_inv in Hk1 as [core [rest2 [-> [Hcore Hk2]]]].
    cbn [Re.match_here] in Hk2.
    apply rep_inv in Hk2 as [after [rest3 [-> [Hafter Hk3]]]].
    cbn [Re.match_here] in Hk3.
    destruct (Str.is_empty rest3 || Str.eqb rest3 Re.newline) eqn:Hend; [|discriminate].
    exists before, (String c core), (after +:+ rest3).
    rewrite !app_cons. split; [reflexivity|]. split; [exact Hbefore|].
    split; [discriminate|]. split; [simpl; rewrite Hc; exact Hcore|].
    rewrite all_app, Hafter. apply orb_true_iff in Hend as [Hend|Hend].
    + destruct rest3; [reflexivity|discriminate].
    + apply str_eqb_eq in Hend as ->. reflexivity.
  - intros [before [core [after [-> [Hbefore [Hne [Hcore Hafter]]]]]]].
    destruct core as [|c core]; [congruence|].
    simpl in Hcore. apply andb_true_iff in Hcore as [Hc Hcore].
    assert (exists r, k1 (EmptyString +:+ before) (String c core +:+ after) = Some r)
      as [r Hr].
    { subst k1. cbn beta. rewrite app_cons. cbn [Re.match_here]. rewrite Hc.
      eexists. apply rep_takes_run; [exact Hcore | |].
      - apply (head_outside _ Char.isspace); [apply space_not_dash_pipe | exact Hafter].
      - cbn [Re.match_here]. rewrite <- (app_empty_r after) at 1.
        apply rep_takes_run; [exact Hafter | exact I |]. reflexivity. }
    rewrite (rep_takes_run Char.isspace k1 before EmptyString (String c core +:+ after) r
               Hbefore); [reflexivity | | exact Hr].
    rewrite app_cons. apply dash_pipe_not_space, Hc.
Qed.

(** [^[\-\s]+$] matches the non-empty texts made of hyphens and
    whitespace: [$] before a final newline adds nothing, the newline being
    whitespace itself. *)
Lemma dashes_re_spec v :
  Re.matched (Re.re_match ReportExtractor.dashes_re v)
  = Str.truthy v && Str.all Re.dash_space v.
Proof.
  destruct v as [|c s]; [reflexivity|].
  unfold Re.re_match, ReportExtractor.dashes_re. cbn [Re.match_here Str.truthy Str.is_empty].
  simpl Str.all. destruct (Re.dash_space c) eqn:Hc; [|reflexivity]. simpl.
  match goal with |- Re.matched (Re.rep _ ?k _ _) = _ => set (k0 := k) end.
  destruct (Re.rep Re.dash_space k0 (String c EmptyString) s) as [r|] eqn:Hrep.
  - apply rep_inv in Hrep as [run [rest [-> [Hrun Hk]]]].
    rewrite all_app, Hrun. subst k0. cbn [Re.match_here] in Hk.
    destruct (Str.is_empty rest || Str.eqb rest Re.newline) eqn:Hend; [|discriminate].
    apply orb_true_iff in Hend as [Hend|Hend].
    + destruct rest; [reflexivity|discriminate].
    + apply str_eqb_eq in Hend as ->. reflexivity.
  - destruct (Str.all Re.dash_space s) eqn:Hall; [|reflexivity].
    pose proof (rep_takes_run Re.dash_space k0 s (String c EmptyString) EmptyString
                  (None, EmptyString) Hall I eq_refl) as Hrun.
    rewrite app_empty_r in Hrun. congruence.
Qed.

Lemma position_index x cols :
  list_index x cols
  = match Table.position x cols with
    | Some i => Ok i
    | None => Raise (ValueError "x not in list")
    end.
Proof.
  induction cols as [|c cols IH]; [reflexivity|]. simpl.
  destruct (Str.eqb c x); [reflexivity|]. rewrite IH.
  destruct (Table.position x cols); reflexivity.
Qed.

Lemma mem_position x cols :
  list_mem x cols = true -> exists i, Table.position x cols = Some i /\ i < length cols.
Proof.
  unfold list_mem. induction cols as [|c cols IH]; [discriminate|]. simpl.
  unfold Str.eqb at 1 3. rewrite (String.eqb_sym x c).
  destruct (String.eqb c x).
  - intros _. exists 0. split; [reflexivity | lia].
  - intros [i [-> Hi]]%IH. exists (S i). split; [reflexivity | lia].
Qed.

(** One row after the header: the loop adds what the row contributes. *)
Lemma scan_row hc ps row :
  list_mem "project" hc = true ->
  ReportExtractor.scan_line
    {| ReportExtractor.header_found := true; ReportExtractor.header_cols := hc;
       ReportExtractor.projects := ps |} row
  = Ok {| ReportExtractor.header_found := true; ReportExtractor.header_cols := hc;
          ReportExtractor.projects :=
            match Table.project_value hc row with
            | Some x => {[ x ]} ∪ ps
            | None => ps
            end |}.
Proof.
  intros [i [Hpos Hi]]%mem_position.
  unfold ReportExtractor.scan_line, Table.project_value, Table.is_separator_row.
  cbn [ReportExtractor.header_found ReportExtractor.header_cols ReportExtractor.projects
       negb andb].
  destruct (Re.matched (Re.re_match ReportExtractor.separator_row_re row)); [reflexivity|].
  destruct (Str.contains "|" row); [|reflexivity]. cbn [negb orb].
  replace (Nat.eqb (length hc) 0) with false
    by (symmetry; apply Nat.eqb_neq; lia).
  cbn [negb andb].
  destruct (Nat.eqb (length (ReportExtractor.columns row)) (length hc)) eqn:Hlen;
    [|reflexivity].
  apply Nat.eqb_eq in Hlen.
  rewrite position_index, Hpos. cbn [mbind Res_bind option_bind]. unfold list_get.
  destruct (lookup_lt_is_Some_2 (ReportExtractor.columns row) i) as [col Hcol]; [lia|].
  rewrite Hcol. cbn [mbind Res_bind option_bind].
  rewrite dashes_re_spec. unfold Table.only_separators, Str.truthy.
  destruct (Str.is_empty (Str.strip col)); [reflexivity|].
  destruct (Str.all Re.dash_space (Str.strip col)); reflexivity.
Qed.

(** The rows after the header. *)
Lemma scan_rows hc :
  list_mem "project" hc = true ->
  forall rows ps,
    exists st,
      for_each ReportExtractor.scan_line rows
        {| ReportExtractor.header_found := true; ReportExtractor.header_cols := hc;
           ReportExtractor.projects := ps |} = Ok st
      /\ ReportExtractor.projects st
         = list_to_set (omap (Table.project_value hc) rows) ∪ ps.
Proof.
  intros Hmem. induction rows as [|row rows IH]; intros ps.
  - eexists. split; [reflexivity|]. simpl. rewrite (left_id_L ∅ (∪)). reflexivity.
  - cbn [for_each]. rewrite (scan_row hc ps row Hmem). cbn [mbind Res_bind].
    destruct (IH (match Table.project_value hc row with
                  | Some x => {[ x ]} ∪ ps
                  | None => ps
                  end)) as [st [Hst Hps]].
    exists st. split; [exact Hst|]. rewrite Hps. cbn [omap list_omap].
    destruct (Table.project_value hc row) as [x|]; cbn [list_to_set]; [|reflexivity].
    set (later := list_to_set (omap (Table.project_value hc) rows) : gset string).
    rewrite (assoc_L (∪) later), (comm_L (∪) later {[ x ]}). reflexivity.
Qed.

(** One line before the header: a line with a pipe sets the header's
    columns, and is the header when "project" is among them. *)
Lemma scan_before_header hc ps line :
  ReportExtractor.scan_line
    {| ReportExtractor.header_found := false; ReportExtractor.header_cols := hc;
       ReportExtractor.projects := ps |} line
  = Ok (if Str.contains "|" line
        then {| ReportExtractor.header_found :=
                  list_mem "project" (map Str.lower (ReportExtractor.columns line));
                ReportExtractor.header_cols := map Str.lower (ReportExtractor.columns line);
                ReportExtractor.projects := ps |}
        else {| ReportExtractor.header_found := false; ReportExtractor.header_cols := hc;
                ReportExtractor.projects := ps |}).
Proof.
  unfold ReportExtractor.scan_line.
  cbn [ReportExtractor.header_found ReportExtractor.header_cols ReportExtractor.projects
       negb andb].
  destruct (Str.contains "|" line); reflexivity.
Qed.

(** The whole loop: nothing is added before the header row, and the rows
    after it add what they contribute. The loop never raises. *)
Lemma scan_lines lines :
  forall hc ps,
    exists st,
      for_each ReportExtractor.scan_line lines
        {| ReportExtractor.header_found := false; ReportExtractor.header_cols := hc;
           ReportExtractor.projects := ps |} = Ok st
      /\ ReportExtractor.projects st
         = match Table.find_table lines with
           | None => ps
           | Some (header, rows) =>
               list_to_set
                 (omap (Table.project_value (map Str.lower (ReportExtractor.columns header)))
                       rows) ∪ ps
           end.
Proof.
  induction lines as [|line lines IH]; intros hc ps.
  - eexists. split; reflexivity.
  - cbn [for_each Table.find_table]. rewrite scan_before_header.
    unfold Table.is_header_row.
    destruct (Str.contains "|" line); cbn [andb mbind Res_bind].
    + destruct (list_mem "project" (map Str.lower (ReportExtractor.columns line))) eqn:Hmem.
      * apply scan_rows, Hmem.
      * apply IH.
    + apply IH.
Qed.

(** From the content on: a document with "Project" and a pipe in it is
    read as a table. *)
Lemma parse_schedule_table content :
  Str.contains "Project" content = true ->
  Str.contains "|" content = true ->
  ReportExtractor.parse_schedule content = Ok (elements (Table.table_projects content)).
Proof.
  intros HP Hpipe. unfold ReportExtractor.parse_schedule, Table.table_projects.
  rewrite HP, Hpipe. cbn [andb].
  destruct (scan_lines (Str.splitlines content) [] ∅) as [st [-> Hps]].
  cbn [mbind Res_bind]. rewrite Hps.
  destruct (Table.find_table (Str.splitlines content)) as [[header rows]|];
    [|reflexivity].
  rewrite (right_id_L ∅ (∪)). reflexivity.
Qed.

(** A document with "Project" and a pipe in it but no header row is read
    as a table without rows: no project, and no failure. *)
Lemma parse_schedule_without_header content :
  Str.contains "Project" content = true ->
  Str.contains "|" content = true ->
  Table.find_table (Str.splitlines content) = None ->
  ReportExtractor.parse_schedule content = Ok [].
Proof.
  intros HP Hpipe Hnone. rewrite (parse_schedule_table content HP Hpipe).
  unfold Table.table_projects. rewrite Hnone. rewrite elements_empty. reflexivity.
Qed.

Lemma parse_schedule_no_table content :
  Str.contains "Project" content = false \/ Str.contains "|" content = false ->
  exists e, ReportExtractor.parse_schedule content = Raise e.
Proof.
  intros H. unfold ReportExtractor.parse_schedule.
  destruct H as [-> | ->]; [|rewrite andb_false_r]; eexists; reflexivity.
Qed.

(** The [try] block of [list_possible_projects] raises exactly when the
    schedule cannot be used. *)
Lemma schedule_unusable_iff_raises github_client :
  schedule_unusable github_client
  <-> exists e, ReportExtractor.projects_from_schedule github_client = Raise e.
Proof.
  unfold schedule_unusable, ReportExtractor.projects_from_schedule.
  destruct (get_file_by_path github_client ReportExtractor.schedule_path)
    as [file_info|e]; cbn [mbind Res_bind]; [|split; eauto].
  destruct (get_file_content github_client file_info) as [content|e];
    cbn [mbind Res_bind]; [|split; eauto].
  split; [apply parse_schedule_no_table|].
  intros [e He].
  destruct (Str.contains "Project" content) eqn:HP; [|auto].
  destruct (Str.contains "|" content) eqn:Hpipe; [|auto].
  rewrite (parse_schedule_table content HP Hpipe) in He. discriminate.
Qed.

Lemma in_elements (X : gset string) x : In x (elements X) <-> x ∈ X.
Proof. rewrite <- list_elem_of_In. apply elem_of_elements. Qed.

Lemma nodup_elements (X : gset string) : List.NoDup (elements X).
Proof. apply NoDup_ListNoDup, NoDup_elements. Qed.

(** C5, as the code has it. When the schedule can be read and its content
    has "Project" (with this capital) and a pipe in it,
    [list_possible_projects] returns, each once, the values of the table:
    the header is the first line with a pipe whose trimmed, lowercased
    columns include "project"; every later line that has a pipe, is no
    separator row and has as many columns as the header gives the trimmed,
    lowercased value of the first such column, unless that value is empty
    or made of hyphens and whitespace. *)
Theorem schedule_table_is_read :
  forall (github_client : GitHubClient) (file_info : FileInfo) (content : string),
    get_file_by_path github_client ReportExtractor.schedule_path = Ok file_info ->
    get_file_content github_client file_info = Ok content ->
    Str.contains "Project" content = true ->
    Str.contains "|" content = true ->
    exists project_list,
      ReportExtractor.list_possible_projects github_client = Ok project_list
      /\ List.NoDup project_list
      /\ forall x, In x project_list <-> x ∈ Table.table_projects content.
Proof.
  intros github_client file_info content Hfile Hcontent HP Hpipe.
  exists (elements (Table.table_projects content)).
  split; [|split; [apply nodup_elements | intros x; apply in_elements]].
  unfold ReportExtractor.list_possible_projects, ReportExtractor.projects_from_schedule.
  rewrite Hfile. cbn [mbind Res_bind]. rewrite Hcontent. cbn [mbind Res_bind].
  rewrite (parse_schedule_table content HP Hpipe). reflexivity.
Qed.

(** The specification's example: header [Project | Status], rows
    [Hyperledger FireFly | Active] and [ProjectY | Active]. *)
Lemma schedule_table_is_read_witness :
  exists project_list,
    ReportExtractor.list_possible_projects
      (Scenario.schedule_client Scenario.plain_schedule []) = Ok project_list
    /\ In "hyperledger firefly" project_list
    /\ In "projecty" project_list.
Proof.
  destruct (schedule_table_is_read
              (Scenario.schedule_client Scenario.plain_schedule [])
              Scenario.schedule_file Scenario.plain_schedule)
    as [project_list [Hlist [_ Hmem]]]; try reflexivity.
  exists project_list. split; [exact Hlist|].
  split; apply Hmem; refine (bool_decide_unpack _ _); vm_compute; exact I.
Defined.

(** A table under a lower-case header is not read: the content has no
    "Project" in it, discovery goes to the file names, and the row "foo"
    is not among the projects. *)
Lemma lowercase_header_is_not_read :
  ~ discovery_reads_table
      (Scenario.schedule_client Scenario.lowercase_schedule [])
      Scenario.lowercase_schedule.
Proof.
  intros H.
  destruct (H Scenario.schedule_file eq_refl eq_refl) as [project_list [Hlist Hmem]].
  vm_compute in Hlist. injection Hlist as <-.
  apply (Hmem "foo"). refine (bool_decide_unpack _ _). vm_compute. exact I.
Qed.

(** ** Candidate discovery from the file names *)

Lemma app_eq_app_str a : forall b c d,
  a +:+ b = c +:+ d ->
  (exists m, c = a +:+ m /\ b = m +:+ d) \/ (exists m, a = c +:+ m /\ d = m +:+ b).
Proof.
  induction a as [|x a IH]; intros b c d H.
  - left. exists c. split; [reflexivity | exact H].
  - destruct c as [|y c].
    + right. exists (String x a). split; [reflexivity | symmetry; exact H].
    + rewrite !app_cons in H. injection H as <- H.
      destruct (IH _ _ _ H) as [[m [-> ->]] | [m [-> ->]]].
      * left. exists m. split; reflexivity.
      * right. exists m. split; reflexivity.
Qed.

Lemma ends_after_nonword x c y :
  Re.nonword c = true -> ends_with_nonword (x +:+ String c y) = ends_with_nonword y.
Proof.
  intros Hc. induction x as [|d x IH].
  - rewrite app_empty_l. destruct y; [exact Hc | reflexivity].
  - rewrite app_cons. cbn [ends_with_nonword]. rewrite IH.
    destruct (x +:+ String c y) eqn:E; [|reflexivity].
    destruct x; discriminate.
Qed.

Lemma word_then_no_end s :
  Str.all Char.isword s = true -> ends_with_nonword s = true -> s = EmptyString.
Proof.
  induction s as [|c s IH]; [reflexivity|]. simpl Str.all.
  intros [Hc Hs]%andb_true_iff. cbn [ends_with_nonword].
  destruct s as [|d s].
  - unfold Re.nonword. rewrite Hc. discriminate.
  - intros H. specialize (IH Hs H). discriminate.
Qed.

Lemma word_then_no_start s :
  Str.all Char.isword s = true -> starts_with_nonword s = true -> s = EmptyString.
Proof.
  destruct s as [|c s]; [reflexivity|]. simpl.
  intros [Hc _]%andb_true_iff. unfold Re.nonword. rewrite Hc. discriminate.
Qed.

(** The runs of a text made of word characters: the text itself. *)
Lemma word_run_of_word cur token :
  Str.all Char.isword cur = true ->
  word_run token cur <-> token = cur /\ cur <> EmptyString.
Proof.
  intros Hcur. split.
  - intros [Hne [Htok [before [after [E [Hb Ha]]]]]].
    rewrite E, !all_app in Hcur.
    apply andb_true_iff in Hcur as [Hcb Hcur]. apply andb_true_iff in Hcur as [_ Hca].
    rewrite (word_then_no_end _ Hcb Hb), (word_then_no_start _ Hca Ha) in E.
    rewrite app_empty_l, app_empty_r in E. subst cur. auto.
  - intros [-> Hne]. split; [exact Hne|]. split; [exact Hcur|].
    exists EmptyString, EmptyString. rewrite app_empty_l, app_empty_r. auto.
Qed.

(** The runs of a text that goes on with a non-word character after the
    word characters [cur]: [cur] itself, and the runs of what follows. *)
Lemma word_run_step cur c rest token :
  Str.all Char.isword cur = true ->
  Re.nonword c = true ->
  word_run token (cur +:+ String c rest)
  <-> (token = cur /\ cur <> EmptyString) \/ word_run token rest.
Proof.
  intros Hcur Hc.
  assert (Char.isword c = false) as Hc' by (apply negb_true_iff, Hc).
  split.
  - intros [Hne [Htok [before [after [E [Hb Ha]]]]]].
    apply app_eq_app_str in E as [[m [-> E]] | [m [-> E]]].
    + (* the run lies after [c] *)
      destruct m as [|c' m].
      * rewrite app_empty_l in E. destruct token as [|t token]; [congruence|].
        rewrite app_cons in E. injection E as <- _.
        simpl in Htok. rewrite Hc' in Htok. discriminate.
      * rewrite app_cons in E. injection E as <- ->.
        right. split; [exact Hne|]. split; [exact Htok|].
        exists m, after. split; [reflexivity|]. split; [|exact Ha].
        rewrite ends_after_nonword in Hb; assumption.
    + (* the run starts inside [cur] *)
      rewrite all_app in Hcur. apply andb_true_iff in Hcur as [Hcb Hcm].
      rewrite (word_then_no_end _ Hcb Hb), app_empty_l in *.
      symmetry in E. apply app_eq_app_str in E as [[n [-> E]] | [n [-> E]]].
      * (* [m ++ n = token], [c :: rest = n ++ after] *)
        destruct n as [|c' n].
        -- rewrite app_empty_r in Hne |- *. left. split; [reflexivity | exact Hne].
        -- rewrite app_cons in E. injection E as <- _.
           rewrite all_app in Htok. apply andb_true_iff in Htok as [_ Htok].
           simpl in Htok. rewrite Hc' in Htok. discriminate.
      * (* [m = token ++ n], [after = n ++ c :: rest] *)
        rewrite all_app in Hcm. apply andb_true_iff in Hcm as [_ Hn].
        destruct n as [|d n].
        -- rewrite app_empty_r. left. split; [reflexivity | exact Hne].
        -- simpl in Hn. apply andb_true_iff in Hn as [Hd _].
           rewrite E, app_cons in Ha. simpl in Ha. unfold Re.nonword in Ha.
           rewrite Hd in Ha. discriminate.
  - intros [[-> Hne] | [Hne [Htok [before [after [-> [Hb Ha]]]]]]].
    + split; [exact Hne|]. split; [exact Hcur|].
      exists EmptyString, (String c rest). rewrite app_empty_l. auto.
    + split; [exact Hne|]. split; [exact Htok|].
      exists (cur +:+ String c before), after.
      rewrite app_assoc_str, app_cons. split; [reflexivity|].
      rewrite ends_after_nonword by exact Hc. auto.
Qed.

Lemma split_nonword_from_runs s :
  forall cur in_sep token,
    Str.all Char.isword cur = true ->
    (in_sep = true -> cur = EmptyString) ->
    token <> EmptyString ->
    In token (Re.split_nonword_from cur in_sep s) <-> word_run token (cur +:+ s).
Proof.
  induction s as [|c s IH]; intros cur in_sep token Hcur Hsep Hne.
  - cbn [Re.split_nonword_from]. rewrite app_empty_r, (word_run_of_word cur token Hcur).
    split.
    + intros [<- | []]. auto.
    + intros [-> _]. left. reflexivity.
  - cbn [Re.split_nonword_from]. destruct (Re.nonword c) eqn:Hc.
    + rewrite (word_run_step cur c s token Hcur Hc).
      destruct in_sep.
      * rewrite (Hsep eq_refl). rewrite (IH EmptyString true token eq_refl (fun _ => eq_refl) Hne).
        rewrite app_empty_l. split; [auto|].
        intros [[-> _] | H]; [congruence | exact H].
      * cbn [In]. rewrite (IH EmptyString true token eq_refl (fun _ => eq_refl) Hne).
        rewrite app_empty_l. split.
        -- intros [<- | H]; [left; auto | right; exact H].
        -- intros [[-> _] | H]; [left; reflexivity | right; exact H].
    + rewrite (IH (cur +:+ String c EmptyString) false token); [| |discriminate|exact Hne].
      * rewrite app_assoc_str, app_cons, app_empty_l. reflexivity.
      * rewrite all_app, Hcur. simpl. unfold Re.nonword in Hc.
        apply negb_false_iff in Hc. rewrite Hc. reflexivity.
Qed.

(** The non-empty pieces of [re.split(r'\W+', name)] are the maximal runs
    of word characters of [name]. *)
Lemma split_nonword_runs name token :
  token <> EmptyString ->
  In token (Re.split_nonword name) <-> word_run token name.
Proof.
  intros Hne. unfold Re.split_nonword.
  rewrite (split_nonword_from_runs name EmptyString false token eq_refl); [|discriminate|exact Hne].
  rewrite app_empty_l. reflexivity.
Qed.

Lemma add_tokens_spec tokens :
  forall (acc : gset string) x,
    x ∈ ReportExtractor.add_tokens acc tokens
    <-> x ∈ acc \/ exists token, In token tokens /\ 2 < Str.len token /\ x = Str.lower token.
Proof.
  unfold ReportExtractor.add_tokens.
  induction tokens as [|t tokens IH]; intros acc x; cbn [fold_left].
  - split; [auto | intros [H | [token [[] _]]]; exact H].
  - rewrite IH. clear IH.
    assert (Str.truthy t && Nat.ltb 2 (Str.len t) = Nat.ltb 2 (Str.len t)) as ->.
    { destruct t as [|c t]; reflexivity. }
    destruct (Nat.ltb 2 (Str.len t)) eqn:Hlen.
    + apply Nat.ltb_lt in Hlen. rewrite elem_of_union, elem_of_singleton. split.
      * intros [[-> | H] | [token [Hin H]]].
        -- right. exists t. split; [left; reflexivity | auto].
        -- left. exact H.
        -- right. exists token. split; [right; exact Hin | exact H].
      * intros [H | [token [[<- | Hin] [Hl ->]]]].
        -- left. right. exact H.
        -- left. left. reflexivity.
        -- right. exists token. auto.
    + apply Nat.ltb_ge in Hlen. split.
      * intros [H | [token [Hin H]]]; [left; exact H|].
        right. exists token. split; [right; exact Hin | exact H].
      * intros [H | [token [[<- | Hin] [Hl ->]]]].
        -- left. exact H.
        -- lia.
        -- right. exists token. auto.
Qed.

Lemma file_tokens_spec files :
  forall (acc : gset string) x,
    x ∈ fold_left
          (fun acc file_info =>
             if negb (Str.eqb (f_type file_info) "file") then acc
             else ReportExtractor.add_tokens acc
                    (Re.split_nonword (default EmptyString (f_name file_info))))
          files acc
    <-> x ∈ acc
        \/ exists f token,
             In f files /\ f_type f = "file"
             /\ In token (Re.split_nonword (default EmptyString (f_name f)))
             /\ 2 < Str.len token /\ x = Str.lower token.
Proof.
  induction files as [|f files IH]; intros acc x; cbn [fold_left].
  - split; [auto | intros [H | [f [token [[] _]]]]; exact H].
  - rewrite IH. clear IH. destruct (Str.eqb (f_type f) "file") eqn:Htype; cbn [negb].
    + apply str_eqb_eq in Htype. rewrite add_tokens_spec. split.
      * intros [[H | [token [Hin H]]] | [f' [token [Hin H]]]].
        -- left. exact H.
        -- right. exists f, token. split; [left; reflexivity | auto].
        -- right. exists f', token. split; [right; exact Hin | exact H].
      * intros [H | [f' [token [[<- | Hin] [Ht [Htok H]]]]]].
        -- left. left. exact H.
        -- left. right. exists token. auto.
        -- right. exists f', token. auto.
    + apply str_eqb_neq in Htype. split.
      * intros [H | [f' [token [Hin H]]]]; [left; exact H|].
        right. exists f', token. split; [right; exact Hin | exact H].
      * intros [H | [f' [token [[<- | Hin] [Ht H]]]]].
        -- left. exact H.
        -- contradiction.
        -- right. exists f', token. auto.
Qed.

(** C7, as the code has it. When the schedule cannot be used (its fetch
    fails, its content cannot be read, or the content has no "Project" or
    no pipe in it: the cases in which the [try] block raises) and the
    repository's files can be listed, [list_possible_projects] raises
    nothing and returns, each once, exactly the lowercased tokens longer
    than 2 characters of the files' names, a token being a maximal run of
    word characters, which is what splitting on [\W+] leaves. *)
Theorem unusable_schedule_falls_back_to_file_names :
  forall (github_client : GitHubClient) (files : list FileInfo),
    schedule_unusable github_client ->
    list_repo_files github_client = Ok files ->
    exists project_list,
      ReportExtractor.list_possible_projects github_client = Ok project_list
      /\ List.NoDup project_list
      /\ forall x,
           In x project_list
           <-> exists f token,
                 In f files /\ f_type f = "file"
                 /\ word_run token (default EmptyString (f_name f))
                 /\ 2 < Str.len token /\ x = Str.lower token.
Proof.
  intros github_client files [e He]%schedule_unusable_iff_raises Hfiles.
  unfold ReportExtractor.list_possible_projects. rewrite He. cbn [try_except].
  unfold ReportExtractor.projects_from_file_names. rewrite Hfiles. cbn [mbind Res_bind].
  eexists. split; [reflexivity|]. split; [apply nodup_elements|].
  intros x. rewrite in_elements, file_tokens_spec. split.
  - intros [H | [f [token [Hf [Htype [Htok [Hlen ->]]]]]]].
    + apply not_elem_of_empty in H. destruct H.
    + exists f, token. repeat (split; [assumption|]). split; [|auto].
      apply split_nonword_runs; [|exact Htok]. intros ->. simpl in Hlen. lia.
  - intros [f [token [Hf [Htype [Hrun [Hlen ->]]]]]]. right.
    exists f, token. repeat (split; [assumption|]). split; [|auto].
    apply split_nonword_runs; [destruct Hrun as [Hne _]; exact Hne | exact Hrun].
Qed.

Lemma unusable_schedule_falls_back_to_file_names_witness :
  exists project_list,
    ReportExtractor.list_possible_projects
      (Scenario.no_schedule_client
         [Scenario.named_file "2025-annual-Hyperledger-FireFly.md"]) = Ok project_list
    /\ In "firefly" project_list
    /\ ~ In "md" project_list.
Proof.
  destruct (unusable_schedule_falls_back_to_file_names
              (Scenario.no_schedule_client
                 [Scenario.named_file "2025-annual-Hyperledger-FireFly.md"])
              [Scenario.named_file "2025-annual-Hyperledger-FireFly.md"] I eq_refl)
    as [project_list [Hlist [_ Hmem]]].
  exists project_list. split; [exact Hlist|]. split.
  - apply Hmem. exists (Scenario.named_file "2025-annual-Hyperledger-FireFly.md"), "FireFly".
    split; [left; reflexivity|]. split; [reflexivity|].
    split; [apply split_nonword_runs; [discriminate | vm_compute; auto 10]|].
    split; [apply Nat.ltb_lt; reflexivity | reflexivity].
  - vm_compute in Hlist. injection Hlist as <-.
    intros H. repeat (destruct H as [H|H]; [discriminate|]). destruct H.
Defined.

(** A schedule that is read and has "Project" and a pipe in it, but no
    header row, is no failure for the code: discovery returns no candidate
    and never looks at the file names, although a file is listed whose
    name has tokens longer than 2 characters. *)
Lemma tableless_schedule_is_not_a_failure :
  ~ tableless_schedule_falls_back
      (Scenario.schedule_client Scenario.prose_schedule
         [Scenario.named_file "2025-annual-Hyperledger-FireFly.md"])
      Scenario.prose_schedule.
Proof.
  intros H.
  destruct (H Scenario.schedule_file
              [Scenario.named_file "2025-annual-Hyperledger-FireFly.md"]
              eq_refl ltac:(vm_compute; reflexivity) ltac:(vm_compute; reflexivity) eq_refl)
    as [project_list [Hlist Hmem]].
  vm_compute in Hlist. injection Hlist as <-.
  apply (proj2 (Hmem "firefly")).
  exists (Scenario.named_file "2025-annual-Hyperledger-FireFly.md"), "FireFly".
  split; [left; reflexivity|]. split; [reflexivity|].
  split; [apply split_nonword_runs; [discriminate | vm_compute; auto 10]|].
  split; [apply Nat.ltb_lt; reflexivity | reflexivity].
Qed.

(** ** The analysis pipeline and the run *)

Section Pipeline.
Context {L : Type} (post : Endpoint L) (agent : AIAgent.t).

(** A call to the endpoint leaves the file and the log of writes alone. *)
Lemma generate_keeps_file payload (w : World L) :
  out_file (snd (AnalysisEngine.generate post (AIAgent.analysis_engine agent) payload w)) = out_file w
  /\ sink_log (snd (AnalysisEngine.generate post (AIAgent.analysis_engine agent) payload w)) = sink_log w.
Proof.
  unfold AnalysisEngine.generate.
  destruct (post _ payload (llm w)) as [r l']. split; reflexivity.
Qed.

Lemma generate_deterministic payload (w1 w2 : World L) :
  deterministic post ->
  fst (AnalysisEngine.generate post (AIAgent.analysis_engine agent) payload w1)
  = fst (AnalysisEngine.generate post (AIAgent.analysis_engine agent) payload w2).
Proof.
  intros Hdet. unfold AnalysisEngine.generate.
  specialize (Hdet (AnalysisEngine.llm_server_url (AIAgent.analysis_engine agent) +:+ "/api/generate")
                   payload (llm w1) (llm w2)).
  destruct (post _ payload (llm w1)), (post _ payload (llm w2)). exact Hdet.
Qed.

Lemma analyze_single_report_keeps_file report index (w : World L) :
  out_file (snd (AnalysisEngine.analyze_single_report post (AIAgent.analysis_engine agent) report index w)) = out_file w
  /\ sink_log (snd (AnalysisEngine.analyze_single_report post (AIAgent.analysis_engine agent) report index w))
     = sink_log w.
Proof.
  unfold AnalysisEngine.analyze_single_report. unfold mbind, M_bind, mret, M_ret.
  match goal with |- context [AnalysisEngine.generate post (AIAgent.analysis_engine agent) ?p w] =>
    pose proof (generate_keeps_file p w) as H;
    destruct (AnalysisEngine.generate post (AIAgent.analysis_engine agent) p w) as [[resp|e] w'] end;
    exact H.
Qed.

Lemma analyze_single_report_deterministic report index (w1 w2 : World L) :
  deterministic post ->
  fst (AnalysisEngine.analyze_single_report post (AIAgent.analysis_engine agent) report index w1)
  = fst (AnalysisEngine.analyze_single_report post (AIAgent.analysis_engine agent) report index w2).
Proof.
  intros Hdet. unfold AnalysisEngine.analyze_single_report. unfold mbind, M_bind, mret, M_ret.
  match goal with |- context [AnalysisEngine.generate post (AIAgent.analysis_engine agent) ?p w1] =>
    pose proof (generate_deterministic p w1 w2 Hdet) as H;
    destruct (AnalysisEngine.generate post (AIAgent.analysis_engine agent) p w1) as [[resp1|e1] w1'],
             (AnalysisEngine.generate post (AIAgent.analysis_engine agent) p w2) as [[resp2|e2] w2'] end;
    cbn [fst] in *; congruence.
Qed.

Lemma analyze_reports_keeps_file steps (w : World L) :
  out_file (snd (AnalysisEngine.analyze_reports post (AIAgent.analysis_engine agent) steps w)) = out_file w.
Proof.
  unfold AnalysisEngine.analyze_reports. unfold mbind, M_bind, mret, M_ret.
  match goal with |- context [AnalysisEngine.generate post (AIAgent.analysis_engine agent) ?p w] =>
    pose proof (generate_keeps_file p w) as [H _];
    destruct (AnalysisEngine.generate post (AIAgent.analysis_engine agent) p w) as [[resp|e] w'] end;
    exact H.
Qed.

Lemma analyze_reports_deterministic steps (w1 w2 : World L) :
  deterministic post ->
  fst (AnalysisEngine.analyze_reports post (AIAgent.analysis_engine agent) steps w1)
  = fst (AnalysisEngine.analyze_reports post (AIAgent.analysis_engine agent) steps w2).
Proof.
  intros Hdet. unfold AnalysisEngine.analyze_reports. unfold mbind, M_bind, mret, M_ret.
  match goal with |- context [AnalysisEngine.generate post (AIAgent.analysis_engine agent) ?p w1] =>
    pose proof (generate_deterministic p w1 w2 Hdet) as H;
    destruct (AnalysisEngine.generate post (AIAgent.analysis_engine agent) p w1) as [[resp1|e1] w1'],
             (AnalysisEngine.generate post (AIAgent.analysis_engine agent) p w2) as [[resp2|e2] w2'] end;
    cbn [fst] in *; congruence.
Qed.

(** One turn of the loop, when the analysis succeeds. *)
Lemma analyze_each_cons project report rest idx steps (w : World L) :
  AIAgent.analyze_each post agent project (report :: rest) idx steps w
  = match AnalysisEngine.analyze_single_report post (AIAgent.analysis_engine agent) report idx w with
    | (Ok step, w') =>
        AIAgent.analyze_each post agent project rest (S idx)
          (steps ++ [AIAgent.step_text idx step])
          {| out_file := Some (step_log project (steps ++ [AIAgent.step_text idx step]));
             sink_log := sink_log w'
                         ++ [step_log project (steps ++ [AIAgent.step_text idx step])];
             llm := llm w' |}
    | (Raise e, w') => (Raise e, w')
    end.
Proof.
  cbn [AIAgent.analyze_each]. unfold mbind, M_bind.
  destruct (AnalysisEngine.analyze_single_report post (AIAgent.analysis_engine agent) report idx w)
    as [[step|e] w']; reflexivity.
Qed.

(** The loop over a list in two parts is the loop over the first part and
    then over the second. *)
Lemma analyze_each_app project done later :
  forall idx steps (w : World L),
    AIAgent.analyze_each post agent project (done ++ later) idx steps w
    = match AIAgent.analyze_each post agent project done idx steps w with
      | (Ok steps', w') =>
          AIAgent.analyze_each post agent project later (idx + length done) steps' w'
      | (Raise e, w') => (Raise e, w')
      end.
Proof.
  induction done as [|report done IH]; intros idx steps w.
  - cbn [app length]. rewrite Nat.add_0_r. reflexivity.
  - rewrite <- app_comm_cons, !analyze_each_cons.
    destruct (AnalysisEngine.analyze_single_report post (AIAgent.analysis_engine agent) report idx w)
      as [[step|e] w']; [|reflexivity].
    rewrite IH. cbn [length]. rewrite Nat.add_succ_comm. reflexivity.
Qed.

(** What the loop has done when it ends without a failure. *)
Lemma analyze_each_completed project reports :
  forall idx steps (w : World L) steps' w',
    AIAgent.analyze_each post agent project reports idx steps w = (Ok steps', w') ->
    (exists thoughts,
        length thoughts = length reports
        /\ steps' = steps ++ imap (fun i thought => AIAgent.step_text (idx + i) thought) thoughts)
    /\ sink_log w'
       = sink_log w ++ map (fun j => step_log project (take j steps'))
                           (seq (S (length steps)) (length reports))
    /\ out_file w'
       = match reports with
         | [] => out_file w
         | _ :: _ => Some (step_log project steps')
         end.
Proof.
  induction reports as [|report reports IH]; intros idx steps w steps' w' Hrun.
  - injection Hrun as <- <-. split; [|split].
    + exists []. split; [reflexivity|]. cbn [imap]. rewrite app_nil_r. reflexivity.
    + cbn [length seq map]. rewrite app_nil_r. reflexivity.
    + reflexivity.
  - rewrite analyze_each_cons in Hrun.
    pose proof (analyze_single_report_keeps_file report idx w) as [_ Hlog].
    destruct (AnalysisEngine.analyze_single_report post (AIAgent.analysis_engine agent) report idx w)
      as [[step|e] w1]; [|discriminate]. cbn [snd] in Hlog.
    apply IH in Hrun as [[thoughts [Hlen ->]] [Hsink Hfile]].
    cbn [out_file sink_log] in Hsink, Hfile. split; [|split].
    + exists (step :: thoughts). split; [cbn [length]; congruence|].
      cbn [imap]. rewrite Nat.add_0_r, <- app_assoc. cbn [app]. do 2 f_equal.
      apply imap_ext. intros i thought _. cbn. rewrite Nat.add_succ_r. reflexivity.
    + rewrite Hsink, Hlog, <- app_assoc. f_equal. cbn [length seq map app].
      rewrite length_app in *. cbn [length] in *. rewrite Nat.add_1_r.
      f_equal. f_equal.
      replace (S (length steps)) with (length (steps ++ [AIAgent.step_text idx step]))
        by (rewrite length_app; cbn [length]; lia).
      rewrite take_app_length. reflexivity.
    + destruct reports; [|exact Hfile].
      destruct thoughts; [|discriminate]. cbn [imap]. rewrite app_nil_r. exact Hfile.
Qed.

(** C2. Once the analyses of the first [k] reports have completed, giving
    [steps]: the steps are the [k] analyses, the [i]-th one under its
    heading "Step i Analysis:" and a line break, in order; [write_output]
    has been called [k] times, the [j]-th time writing the project, a
    colon, an empty line, the steps 1..j with an empty line between two of
    them, and a line break; the file holds that text for the steps 1..k;
    the run on the whole list goes on from that state; and when the
    analysis of report [k+1] fails, the pipeline raises that failure and
    leaves the file as it was then, holding the steps before it. *)
Theorem steps_persisted_after_each_report :
  forall (project : string) (done later : list string) (steps : list string)
         (w w_k : World L),
    AIAgent.analyze_each post agent project done 1 [] w = (Ok steps, w_k) ->
    (exists thoughts,
        length thoughts = length done
        /\ steps = imap (fun i thought =>
                          "Step " +:+ Str.of_nat (S i) +:+ " Analysis:" +:+ nl +:+ thought)
                       thoughts)
    /\ sink_log w_k
       = sink_log w
         ++ map (fun j => project +:+ ":" +:+ nl +:+ nl
                          +:+ Str.join (nl +:+ nl) (take j steps) +:+ nl)
                (seq 1 (length done))
    /\ (done <> [] ->
        out_file w_k
        = Some (project +:+ ":" +:+ nl +:+ nl +:+ Str.join (nl +:+ nl) steps +:+ nl))
    /\ AIAgent.analyze_each post agent project (done ++ later) 1 [] w
       = AIAgent.analyze_each post agent project later (S (length done)) steps w_k
    /\ (forall report rest e w_e,
           later = report :: rest ->
           AnalysisEngine.analyze_single_report post (AIAgent.analysis_engine agent)
             report (S (length done)) w_k = (Raise e, w_e) ->
           AIAgent.run_pipeline post agent project (done ++ later) w = (Raise e, w_e)
           /\ out_file w_e = out_file w_k
           /\ sink_log w_e = sink_log w_k).
Proof.
  intros project done later steps w w_k Hdone.
  pose proof (analyze_each_app project done later 1 [] w) as Happ.
  rewrite Hdone in Happ. cbn [Nat.add] in Happ.
  destruct (analyze_each_completed project done 1 [] w steps w_k Hdone)
    as [Hsteps [Hsink Hfile]].
  split; [exact Hsteps|]. split; [exact Hsink|]. split; [|split; [exact Happ|]].
  - intros Hne. destruct done; [congruence | exact Hfile].
  - intros report rest e w_e -> Hfail.
    pose proof (analyze_single_report_keeps_file report (S (length done)) w_k) as Hkeep.
    rewrite Hfail in Hkeep. cbn [snd] in Hkeep.
    split; [|exact Hkeep].
    unfold AIAgent.run_pipeline. unfold mbind, M_bind, mret, M_ret.
    rewrite Happ, analyze_each_cons, Hfail. reflexivity.
Qed.

(** With a deterministic endpoint the loop ends the same way from any two
    worlds, and the two files are equal afterwards unless no step was
    written, in which case both files are as they were. *)
Lemma analyze_each_repeatable project reports :
  deterministic post ->
  forall idx steps (w1 w2 : World L),
    fst (AIAgent.analyze_each post agent project reports idx steps w1)
    = fst (AIAgent.analyze_each post agent project reports idx steps w2)
    /\ ((out_file (snd (AIAgent.analyze_each post agent project reports idx steps w1))
         = out_file w1
         /\ out_file (snd (AIAgent.analyze_each post agent project reports idx steps w2))
            = out_file w2)
        \/ out_file (snd (AIAgent.analyze_each post agent project reports idx steps w1))
           = out_file (snd (AIAgent.analyze_each post agent project reports idx steps w2))).
Proof.
  intros Hdet. induction reports as [|report reports IH]; intros idx steps w1 w2.
  - split; [reflexivity | left; split; reflexivity].
  - rewrite !analyze_each_cons.
    pose proof (analyze_single_report_deterministic report idx w1 w2 Hdet) as Hsame.
    pose proof (analyze_single_report_keeps_file report idx w1) as [Hf1 _].
    pose proof (analyze_single_report_keeps_file report idx w2) as [Hf2 _].
    destruct (AnalysisEngine.analyze_single_report post (AIAgent.analysis_engine agent) report idx w1)
      as [[step1|e1] w1'],
             (AnalysisEngine.analyze_single_report post (AIAgent.analysis_engine agent) report idx w2)
      as [[step2|e2] w2']; cbn [fst snd] in *; try discriminate.
    + injection Hsame as <-.
      match goal with
      | |- context [AIAgent.analyze_each _ _ _ _ _ _ ?a1] =>
          match goal with
          | |- context [AIAgent.analyze_each _ _ _ _ _ _ ?a2] =>
              tryif constr_eq a1 a2 then fail
              else destruct (IH (S idx) (steps ++ [AIAgent.step_text idx step1]) a1 a2)
                     as [Hres Hfiles]
          end
      end.
      split; [exact Hres|]. right.
      destruct Hfiles as [[H1 H2] | H]; [|exact H].
      rewrite H1, H2. reflexivity.
    + injection Hsame as <-. split; [reflexivity | left; split; assumption].
Qed.

(** C9. With a deterministic endpoint, two runs of the pipeline on the
    same project and reports end the same way from any two worlds; when
    they complete, the two files are equal, byte for byte, and hold the
    final summary; and a second run started on the file the first one
    left leaves that same file. *)
Theorem pipeline_output_repeatable :
  deterministic post ->
  forall (project : string) (reports : list string) (w1 w2 : World L),
    let first := AIAgent.run_pipeline post agent project reports w1 in
    let second := AIAgent.run_pipeline post agent project reports w2 in
    fst first = fst second
    /\ (fst first = Ok tt ->
        out_file (snd first) = out_file (snd second)
        /\ exists final_summary,
             out_file (snd first)
             = Some (ResultManager.rendered project
                       ("Final Summary:" +:+ nl +:+ final_summary)))
    /\ (out_file w2 = out_file (snd first) -> out_file (snd second) = out_file (snd first)).
Proof.
  intros Hdet project reports w1 w2. cbv zeta.
  unfold AIAgent.run_pipeline, mbind, M_bind.
  destruct (analyze_each_repeatable project reports Hdet 1 [] w1 w2) as [Hres Hfiles].
  destruct (AIAgent.analyze_each post agent project reports 1 [] w1) as [[steps1|e1] a1],
           (AIAgent.analyze_each post agent project reports 1 [] w2) as [[steps2|e2] a2];
    cbn [fst snd] in *; try discriminate.
  - injection Hres as <-.
    pose proof (analyze_reports_deterministic steps1 a1 a2 Hdet) as Hsame.
    pose proof (analyze_reports_keeps_file steps1 a1) as Hk1.
    pose proof (analyze_reports_keeps_file steps1 a2) as Hk2.
    destruct (AnalysisEngine.analyze_reports post (AIAgent.analysis_engine agent) steps1 a1) as [[s1|e1] b1],
             (AnalysisEngine.analyze_reports post (AIAgent.analysis_engine agent) steps1 a2) as [[s2|e2] b2];
      cbn [fst snd] in *; try discriminate.
    + injection Hsame as <-. cbn.
      split; [reflexivity|]. split; [|reflexivity].
      intros _. split; [reflexivity | eauto].
    + injection Hsame as <-. split; [reflexivity|]. split; [discriminate|].
      intros Hstart. rewrite Hk1, Hk2.
      destruct Hfiles as [[H1 H2] | H]; [|symmetry; exact H]. congruence.
  - injection Hres as <-. split; [reflexivity|]. split; [discriminate|].
    intros Hstart. destruct Hfiles as [[H1 H2] | H]; [|symmetry; exact H]. congruence.
Qed.

(** The loop over the pull requests in two parts. *)
Lemma process_all_app candidate_projects before after :
  forall (w : World L),
    AIAgent.process_all post agent (before ++ after) candidate_projects w
    = match AIAgent.process_all post agent before candidate_projects w with
      | (Ok _, w') => AIAgent.process_all post agent after candidate_projects w'
      | (Raise e, w') => (Raise e, w')
      end.
Proof.
  induction before as [|pr before IH]; intros w; [reflexivity|].
  cbn [app AIAgent.process_all]. unfold mbind, M_bind.
  destruct (AIAgent.process_pull_request post agent pr candidate_projects w)
    as [[[]|e] w']; [|reflexivity].
  apply IH.
Qed.

(** C1, as the code has it. [run] has no handler around
    [process_pull_request]: when the pull requests before one have been
    processed and processing that one raises, [run] raises the same
    failure in the world the failure left, so the pull requests after it
    are not processed. *)
Theorem run_stops_at_first_failure :
  forall (candidate_projects : list string) (before : list PullRequest)
         (pr : PullRequest) (after : list PullRequest) (e : exn) (w w1 w2 : World L),
    ReportExtractor.list_possible_projects (AIAgent.github_client agent)
      = Ok candidate_projects ->
    get_open_pull_requests (AIAgent.github_client agent) = Ok (before ++ pr :: after) ->
    AIAgent.process_all post agent before candidate_projects w = (Ok tt, w1) ->
    AIAgent.process_pull_request post agent pr candidate_projects w1 = (Raise e, w2) ->
    AIAgent.run post agent w = (Raise e, w2).
Proof.
  intros candidate_projects before pr after e w w1 w2 Hcands Hprs Hbefore Hfail.
  unfold AIAgent.run, mbind, M_bind, lift. rewrite Hcands, Hprs.
  assert (AIAgent.process_all post agent (before ++ pr :: after) candidate_projects w
          = (Raise e, w2)) as Hall.
  { rewrite process_all_app, Hbefore. cbn [AIAgent.process_all].
    unfold mbind, M_bind. rewrite Hfail. reflexivity. }
  destruct (before ++ pr :: after) eqn:Hlist; [|exact Hall].
  destruct before; discriminate.
Qed.

End Pipeline.

Lemma steps_persisted_after_each_report_witness :
  AIAgent.run_pipeline (Scenario.failing_at 2) Scenario.two_pr_agent "projecty"
    ["first report"; "second report"; "third report"] Scenario.fresh
  = (Raise (HTTPError 503),
     {| out_file :=
          Some ("projecty:" +:+ nl +:+ nl
                +:+ "Step 1 Analysis:" +:+ nl +:+ "seen 268 characters" +:+ nl +:+ nl
                +:+ "Step 2 Analysis:" +:+ nl +:+ "seen 269 characters" +:+ nl);
        sink_log :=
          ["projecty:" +:+ nl +:+ nl
           +:+ "Step 1 Analysis:" +:+ nl +:+ "seen 268 characters" +:+ nl;
           "projecty:" +:+ nl +:+ nl
           +:+ "Step 1 Analysis:" +:+ nl +:+ "seen 268 characters" +:+ nl +:+ nl
           +:+ "Step 2 Analysis:" +:+ nl +:+ "seen 269 characters" +:+ nl];
        llm := 3 |}).
Proof.
  refine (proj1 (proj2 (proj2 (proj2 (proj2
           (steps_persisted_after_each_report (Scenario.failing_at 2) Scenario.two_pr_agent
              "projecty" ["first report"; "second report"] ["third report"]
              ["Step 1 Analysis:" +:+ nl +:+ "seen 268 characters";
               "Step 2 Analysis:" +:+ nl +:+ "seen 269 characters"]
              Scenario.fresh
              {| out_file :=
                   Some ("projecty:" +:+ nl +:+ nl
                         +:+ "Step 1 Analysis:" +:+ nl +:+ "seen 268 characters" +:+ nl +:+ nl
                         +:+ "Step 2 Analysis:" +:+ nl +:+ "seen 269 characters" +:+ nl);
                 sink_log :=
                   ["projecty:" +:+ nl +:+ nl
                    +:+ "Step 1 Analysis:" +:+ nl +:+ "seen 268 characters" +:+ nl;
                    "projecty:" +:+ nl +:+ nl
                    +:+ "Step 1 Analysis:" +:+ nl +:+ "seen 268 characters" +:+ nl +:+ nl
                    +:+ "Step 2 Analysis:" +:+ nl +:+ "seen 269 characters" +:+ nl];
                 llm := 2 |} _))))
           "third report" [] _ _ eq_refl _)).
  - vm_compute. reflexivity.
  - vm_compute. reflexivity.
Defined.

Lemma echo_deterministic : deterministic Scenario.echo.
Proof. intros url payload l1 l2. reflexivity. Defined.

Lemma pipeline_output_repeatable_witness :
  out_file (snd (AIAgent.run_pipeline Scenario.echo Scenario.two_pr_agent "projecty"
                   ["first report"; "second report"] Scenario.fresh))
  = out_file (snd (AIAgent.run_pipeline Scenario.echo Scenario.two_pr_agent "projecty"
                     ["first report"; "second report"]
                     {| out_file := Some "an older result"; sink_log := []; llm := 41 |})).
Proof.
  refine (proj1 (proj1 (proj2
           (pipeline_output_repeatable Scenario.echo Scenario.two_pr_agent echo_deterministic
              "projecty" ["first report"; "second report"] Scenario.fresh
              {| out_file := Some "an older result"; sink_log := []; llm := 41 |})) _)).
  vm_compute. reflexivity.
Defined.

Lemma run_stops_at_first_failure_witness :
  AIAgent.run Scenario.echo Scenario.two_pr_agent Scenario.fresh
  = (Raise (HTTPError 502), Scenario.fresh).
Proof.
  apply (run_stops_at_first_failure Scenario.echo Scenario.two_pr_agent
           ["openproject"; "hyperledger firefly"; "projecty"]
           [] Scenario.projecty_pr [Scenario.firefly_report_pr]
           (HTTPError 502) Scenario.fresh Scenario.fresh Scenario.fresh).
  - vm_compute. reflexivity.
  - reflexivity.
  - reflexivity.
  - vm_compute. reflexivity.
Defined.

(** With two open pull requests, the first of which fails while its files
    are listed, [run] raises and writes nothing, although the second one,
    processed on its own, gets its summary written. *)
Lemma run_aborts_on_failing_pull_request :
  ~ failures_isolated Scenario.echo Scenario.two_pr_agent Scenario.fresh.
Proof.
  intros H.
  specialize (H ["openproject"; "hyperledger firefly"; "projecty"]
                [Scenario.projecty_pr; Scenario.firefly_report_pr]).
  vm_compute in H. specialize (H eq_refl eq_refl). discriminate.
Qed.

(** * Further properties *)

(** ** More on the regex fragment *)

Lemma all_impl (p q : ascii -> bool) s :
  (forall c, p c = true -> q c = true) -> Str.all p s = true -> Str.all q s = true.
Proof.
  intros Hpq. induction s as [|c s IH]; [reflexivity|]. simpl.
  intros [Hc Hs]%andb_true_iff. rewrite (Hpq c Hc), (IH Hs). reflexivity.
Qed.

(** Group 1 of a match is made of the class [p] when every capturing
    element of the pattern is a class within [p]. *)

Lemma match_here_group p pat :
  Forall (captures_within p) pat ->
  forall at_start g s r,
    Re.match_here pat at_start g s = Some r ->
    (forall x, g = Some x -> Str.all p x = true) ->
    forall x, fst r = Some x -> Str.all p x = true.
Proof.
  induction 1 as [|e pat He _ IH]; intros at_start g s r Hm Hg x Hx.
  - injection Hm as <-. apply Hg, Hx.
  - destruct e as [| |q quant cap]; cbn [Re.match_here] in Hm.
    + destruct at_start; [|discriminate]. exact (IH _ _ _ _ Hm Hg x Hx).
    + destruct (Str.is_empty s || Str.eqb s Re.newline); [|discriminate].
      exact (IH _ _ _ _ Hm Hg x Hx).
    + assert (forall taken rest b,
                 Str.all q taken = true ->
                 Re.match_here pat b (if cap then Some taken else g) rest = Some r ->
                 Str.all p x = true) as Hk.
      { intros taken rest b Htaken Hm'. apply (IH _ _ _ _ Hm'); [|exact Hx].
        destruct cap; [|exact Hg]. intros y [= <-].
        apply (all_impl q p); [exact He | exact Htaken]. }
      destruct quant.
      * destruct s as [|c s]; [discriminate|].
        destruct (q c) eqn:Hc; [|discriminate].
        apply (Hk _ _ _) in Hm; [exact Hm|]. simpl. rewrite Hc. reflexivity.
      * apply rep_inv in Hm as [run [rest [_ [Hrun Hm]]]].
        rewrite app_empty_l in Hm. exact (Hk _ _ _ Hrun Hm).
      * destruct s as [|c s]; [discriminate|].
        destruct (q c) eqn:Hc; [|discriminate].
        apply rep_inv in Hm as [run [rest [_ [Hrun Hm]]]].
        apply (Hk _ _ _) in Hm; [exact Hm|].
        rewrite app_cons, app_empty_l. simpl. rewrite Hc, Hrun. reflexivity.
Qed.

Lemma search_from_group p pat :
  Forall (captures_within p) pat ->
  forall s at_start x,
    Re.group1 (Re.search_from pat at_start s) = Some x -> Str.all p x = true.
Proof.
  intros Hpat. induction s as [|c s IH]; intros at_start x; cbn [Re.search_from].
  - destruct (Re.match_here pat at_start None EmptyString) as [[g rest]|] eqn:Hm;
      [|discriminate].
    cbn [Re.group1]. intros ->.
    apply (match_here_group p pat Hpat _ _ _ _ Hm); [discriminate | reflexivity].
  - destruct (Re.match_here pat at_start None (String c s)) as [[g rest]|] eqn:Hm.
    + cbn [Re.group1]. intros ->.
      apply (match_here_group p pat Hpat _ _ _ _ Hm); [discriminate | reflexivity].
    + apply IH.
Qed.

Lemma title_re_captures : Forall (captures_within Re.word_dash) ReportExtractor.title_re.
Proof. repeat constructor. intros c H. exact H. Qed.

Lemma body_re_captures : Forall (captures_within Re.word_dash) ReportExtractor.body_re.
Proof. repeat constructor. intros c H. exact H. Qed.

Lemma accepted_inv candidate name :
  ReportExtractor.accepted candidate = Some name ->
  candidate = Some name /\ name <> EmptyString /\ Str.lower name <> "create".
Proof.
  unfold ReportExtractor.accepted. destruct candidate as [c|]; [|discriminate].
  destruct (Str.truthy c) eqn:Ht; [|discriminate]. cbn [andb].
  destruct (Str.eqb (Str.lower c) "create") eqn:Hc; [discriminate|].
  intros [= <-]. split; [reflexivity|]. split.
  - intros ->. discriminate.
  - apply str_eqb_neq, Hc.
Qed.

(** ** More on project-name extraction *)

(** X1. Without an engine, a name that [extract_project_name_from_pr]
    returns is a non-empty token of word characters and hyphens, and it is
    not "create" in any letter case. *)
Theorem heuristic_name_is_a_token :
  forall (pr : PullRequest) (name : string) (calls : list (json_text * json_text)),
    ReportExtractor.extract_project_name_from_pr pr None = (Ok (Some name), calls) ->
    name <> EmptyString
    /\ Str.all Re.word_dash name = true
    /\ Str.lower name <> "create".
Proof.
  intros pr name calls. unfold ReportExtractor.extract_project_name_from_pr.
  destruct (get_or_empty (pr_title pr)) as [|title_text]; [discriminate|].
  destruct (ReportExtractor.accepted
              (Re.group1 (Re.re_match ReportExtractor.title_re title_text)))
    as [c|] eqn:Htitle.
  - intros [= <- _]. apply accepted_inv in Htitle as [Hg [Hne Hcreate]].
    split; [exact Hne|]. split; [|exact Hcreate].
    unfold Re.re_match in Hg.
    destruct (Re.match_here ReportExtractor.title_re true None title_text)
      as [[g rest]|] eqn:Hm; [|discriminate]. cbn [Re.group1] in Hg. subst g.
    apply (match_here_group _ _ title_re_captures _ _ _ _ Hm); [discriminate | reflexivity].
  - destruct (get_or_empty (pr_body pr)) as [|body_text]; [discriminate|].
    destruct (ReportExtractor.accepted
                (Re.group1 (Re.re_search ReportExtractor.body_re body_text)))
      as [c|] eqn:Hbody; [|discriminate].
    intros [= <- _]. apply accepted_inv in Hbody as [Hg [Hne Hcreate]].
    split; [exact Hne|]. split; [|exact Hcreate].
    exact (search_from_group _ _ body_re_captures _ _ _ Hg).
Qed.

Lemma heuristic_name_is_a_token_witness :
  Str.all Re.word_dash "Hyperledger" = true /\ Str.lower "Hyperledger" <> "create".
Proof.
  exact (proj2 (heuristic_name_is_a_token Scenario.firefly_pr "Hyperledger" [] eq_refl)).
Defined.

(** X2. The engine is the last resort: either the heuristics settle the
    outcome (a name, or a [TypeError]), and then the engine is not called
    and makes no difference; or the heuristics find nothing, and then the
    engine is called once, with the title and the body as the pull request
    has them, and its outcome is returned as it is. *)
Theorem engine_is_last_resort :
  forall (pr : PullRequest) (engine : InferEngine),
    (ReportExtractor.extract_project_name_from_pr pr None <> (Ok None, [])
     /\ ReportExtractor.extract_project_name_from_pr pr (Some engine)
        = ReportExtractor.extract_project_name_from_pr pr None)
    \/ (ReportExtractor.extract_project_name_from_pr pr None = (Ok None, [])
        /\ ReportExtractor.extract_project_name_from_pr pr (Some engine)
           = (engine (get_or_empty (pr_title pr)) (get_or_empty (pr_body pr)),
              [(get_or_empty (pr_title pr), get_or_empty (pr_body pr))])).
Proof.
  intros pr engine. unfold ReportExtractor.extract_project_name_from_pr.
  destruct (get_or_empty (pr_title pr)) as [|title_text];
    [left; split; [discriminate | reflexivity]|].
  destruct (ReportExtractor.accepted
              (Re.group1 (Re.re_match ReportExtractor.title_re title_text)));
    [left; split; [discriminate | reflexivity]|].
  destruct (get_or_empty (pr_body pr)) as [|body_text];
    [left; split; [discriminate | reflexivity]|].
  destruct (ReportExtractor.accepted
              (Re.group1 (Re.re_search ReportExtractor.body_re body_text)));
    [left; split; [discriminate | reflexivity]|].
  right. split; reflexivity.
Qed.

(** X3. GitHub sends [null] for an empty description. When the title has
    no leading token other than "create" and the body is [null], the
    extraction raises [TypeError], engine or not, and the engine is not
    called. *)
Theorem null_body_raises_type_error :
  forall (pr : PullRequest) (llm_engine : option InferEngine) (title : string),
    pr_title pr = Some (JStr title) ->
    pr_body pr = Some JNull ->
    (forall token sep rest,
        title = token +:+ String sep rest ->
        token <> EmptyString -> Str.all Re.word_dash token = true ->
        Re.space_colon sep = true ->
        Str.lower token = "create") ->
    ReportExtractor.extract_project_name_from_pr pr llm_engine = (Raise TypeError, []).
Proof.
  intros pr llm_engine title Htitle Hbody Hcreate.
  unfold ReportExtractor.extract_project_name_from_pr. rewrite Htitle, Hbody.
  cbn [get_or_empty].
  destruct (ReportExtractor.accepted
              (Re.group1 (Re.re_match ReportExtractor.title_re title)))
    as [c|] eqn:Hacc; [|reflexivity].
  apply accepted_inv in Hacc as [Hg [_ Hnot]].
  apply title_re_match_inv in Hg as [sep [rest [E [Hne [Hall Hsep]]]]].
  destruct (Hnot (Hcreate c sep rest E Hne Hall Hsep)).
Qed.

Lemma null_body_raises_type_error_witness :
  ReportExtractor.extract_project_name_from_pr
    {| pr_number := Some 7%Z; pr_title := Some (JStr "Create 2025-annual-report.md");
       pr_body := Some JNull; pr_description := None |}
    (Some Scenario.dummy_engine)
  = (Raise TypeError, []).
Proof.
  apply (null_body_raises_type_error _ _ "Create 2025-annual-report.md");
    [reflexivity | reflexivity |].
  intros token sep rest E Hne Hall Hsep.
  pose proof (title_re_leading_token token sep rest Hne Hall Hsep) as Hg.
  rewrite <- E in Hg. vm_compute in Hg. injection Hg as <-. reflexivity.
Defined.

(** ** More on strings *)

Lemma lower_c_space : forall c, Char.isspace (Char.lower_c c) = Char.isspace c.
Proof. by_char_table. Qed.

Lemma word_not_space : forall c, Char.isword c = true -> Char.isspace c = false.
Proof. by_char_table. Qed.

Lemma lower_is_empty s : Str.is_empty (Str.lower s) = Str.is_empty s.
Proof. destruct s; reflexivity. Qed.

Lemma lstrip_lower s :
  Str.lstrip_by Char.isspace (Str.lower s) = Str.lower (Str.lstrip_by Char.isspace s).
Proof.
  induction s as [|c s IH]; [reflexivity|]. simpl. rewrite lower_c_space.
  destruct (Char.isspace c); [exact IH | reflexivity].
Qed.

Lemma rstrip_lower s :
  Str.rstrip_by Char.isspace (Str.lower s) = Str.lower (Str.rstrip_by Char.isspace s).
Proof.
  induction s as [|c s IH]; [reflexivity|]. simpl.
  rewrite IH, lower_is_empty, lower_c_space.
  destruct (Str.is_empty (Str.rstrip_by Char.isspace s) && Char.isspace c); reflexivity.
Qed.

Lemma strip_lower s : Str.strip (Str.lower s) = Str.lower (Str.strip s).
Proof. unfold Str.strip, Str.strip_by. rewrite lstrip_lower, rstrip_lower. reflexivity. Qed.

Lemma rstrip_idempotent p s : Str.rstrip_by p (Str.rstrip_by p s) = Str.rstrip_by p s.
Proof.
  induction s as [|c s IH]; [reflexivity|]. simpl.
  destruct (Str.is_empty (Str.rstrip_by p s) && p c) eqn:E; [reflexivity|].
  simpl. rewrite IH, E. reflexivity.
Qed.

(** What is left of a left strip starts with a character outside [p]. *)
Lemma lstrip_head p s :
  match Str.lstrip_by p s with
  | String c _ => p c = false
  | EmptyString => True
  end.
Proof.
  induction s as [|c s IH]; [exact I|]. simpl.
  destruct (p c) eqn:Hc; [exact IH | exact Hc].
Qed.

Lemma lstrip_fixed p s :
  match s with String c _ => p c = false | EmptyString => True end ->
  Str.lstrip_by p s = s.
Proof. destruct s as [|c s]; [reflexivity|]. simpl. intros ->. reflexivity. Qed.

Lemma rstrip_head p s :
  match s with String c _ => p c = false | EmptyString => True end ->
  match Str.rstrip_by p s with String c _ => p c = false | EmptyString => True end.
Proof.
  destruct s as [|c s]; [auto|]. simpl. intros Hc. rewrite Hc, andb_false_r. exact Hc.
Qed.

Lemma strip_idempotent p s : Str.strip_by p (Str.strip_by p s) = Str.strip_by p s.
Proof.
  unfold Str.strip_by.
  rewrite (lstrip_fixed p (Str.rstrip_by p (Str.lstrip_by p s))).
  - apply rstrip_idempotent.
  - apply rstrip_head, lstrip_head.
Qed.

Lemma strip_of_word s : Str.all Char.isword s = true -> Str.strip s = s.
Proof.
  intros Hs. unfold Str.strip, Str.strip_by.
  assert (Str.lstrip_by Char.isspace s = s) as ->.
  { destruct s as [|c s]; [reflexivity|]. simpl in *.
    apply andb_true_iff in Hs as [Hc _]. rewrite (word_not_space c Hc). reflexivity. }
  induction s as [|c s IH]; [reflexivity|]. simpl in *.
  apply andb_true_iff in Hs as [Hc Hs].
  rewrite (IH Hs), (word_not_space c Hc), andb_false_r. reflexivity.
Qed.

(** ** More on candidate discovery *)

Lemma lower_nonempty s : s <> EmptyString -> Str.lower s <> EmptyString.
Proof. destruct s; [congruence | discriminate]. Qed.

Lemma lower_c_idempotent : forall c, Char.lower_c (Char.lower_c c) = Char.lower_c c.
Proof. by_char_table. Qed.

Lemma lower_idempotent s : Str.lower (Str.lower s) = Str.lower s.
Proof.
  induction s as [|c s IH]; [reflexivity|].
  cbn [Str.lower]. rewrite lower_c_idempotent, IH. reflexivity.
Qed.

Lemma project_value_normalized hc row x :
  Table.project_value hc row = Some x -> normalized x.
Proof.
  unfold Table.project_value.
  destruct (Table.is_separator_row row || negb (Str.contains "|" row)); [discriminate|].
  destruct (Nat.eqb _ _); [|discriminate].
  destruct (Table.position "project" hc) as [idx|]; [|discriminate]. cbn [mbind option_bind].
  destruct (ReportExtractor.columns row !! idx) as [value|]; [|discriminate].
  cbn [mbind option_bind].
  destruct (Str.is_empty (Str.strip value)) eqn:Hempty; [discriminate|]. cbn [orb].
  destruct (Table.only_separators (Str.strip value)); [discriminate|].
  intros [= <-]. split; [|split].
  - apply lower_nonempty. intros E. rewrite E in Hempty. discriminate.
  - apply lower_idempotent.
  - rewrite strip_lower. f_equal. apply strip_idempotent.
Qed.

Lemma table_projects_normalized content x :
  x ∈ Table.table_projects content -> normalized x.
Proof.
  unfold Table.table_projects.
  destruct (Table.find_table (Str.splitlines content)) as [[header rows]|].
  - rewrite elem_of_list_to_set, list_elem_of_omap.
    intros [row [_ Hrow]]. exact (project_value_normalized _ _ _ Hrow).
  - intros H. apply not_elem_of_empty in H. destruct H.
Qed.

Lemma word_run_normalized token :
  (exists name, word_run token name) -> normalized (Str.lower token).
Proof.
  intros [name [Hne [Hword _]]]. split; [|split].
  - apply lower_nonempty, Hne.
  - apply lower_idempotent.
  - rewrite strip_lower, (strip_of_word token Hword). reflexivity.
Qed.

(** The file-name path on its own. *)
Lemma projects_from_file_names_tokens github_client files :
  list_repo_files github_client = Ok files ->
  exists project_list,
    ReportExtractor.projects_from_file_names github_client = Ok project_list
    /\ forall x,
         In x project_list
         <-> exists f token,
               In f files /\ f_type f = "file"
               /\ word_run token (default EmptyString (f_name f))
               /\ 2 < Str.len token /\ x = Str.lower token.
Proof.
  intros Hfiles. unfold ReportExtractor.projects_from_file_names.
  rewrite Hfiles. cbn [mbind Res_bind]. eexists. split; [reflexivity|].
  intros x. rewrite in_elements, file_tokens_spec. split.
  - intros [H | [f [token [Hf [Htype [Htok [Hlen ->]]]]]]].
    + apply not_elem_of_empty in H. destruct H.
    + exists f, token. repeat (split; [assumption|]). split; [|auto].
      apply split_nonword_runs; [|exact Htok]. intros ->. simpl in Hlen. lia.
  - intros [f [token [Hf [Htype [Hrun [Hlen ->]]]]]]. right.
    exists f, token. repeat (split; [assumption|]). split; [|auto].
    apply split_nonword_runs; [destruct Hrun as [Hne _]; exact Hne | exact Hrun].
Qed.

(** X4. Whatever path [list_possible_projects] takes, every candidate it
    returns is in normal form: it is not empty, lowercasing it changes
    nothing, so that it can occur in the lowercased text of a pull
    request, and stripping it changes nothing. *)
Theorem candidates_are_normalized :
  forall (github_client : GitHubClient) (project_list : list string) (x : string),
    ReportExtractor.list_possible_projects github_client = Ok project_list ->
    In x project_list ->
    normalized x.
Proof.
  intros github_client project_list x Hlist Hx.
  unfold ReportExtractor.list_possible_projects in Hlist.
  destruct (ReportExtractor.projects_from_schedule github_client) as [l|e] eqn:Hsched;
    cbn [try_except] in Hlist.
  - injection Hlist as <-.
    unfold ReportExtractor.projects_from_schedule in Hsched.
    destruct (get_file_by_path github_client ReportExtractor.schedule_path)
      as [file_info|]; [|discriminate]. cbn [mbind Res_bind] in Hsched.
    destruct (get_file_content github_client file_info) as [content|]; [|discriminate].
    cbn [mbind Res_bind] in Hsched.
    destruct (Str.contains "Project" content) eqn:HP;
      [|unfold ReportExtractor.parse_schedule in Hsched; rewrite HP in Hsched; discriminate].
    destruct (Str.contains "|" content) eqn:Hpipe;
      [|unfold ReportExtractor.parse_schedule in Hsched; rewrite HP, Hpipe in Hsched;
        discriminate].
    rewrite (parse_schedule_table content HP Hpipe) in Hsched. injection Hsched as <-.
    apply in_elements in Hx. exact (table_projects_normalized _ _ Hx).
  - pose proof (projects_from_file_names_tokens github_client) as Htokens.
    destruct (list_repo_files github_client) as [files|e'] eqn:Hfiles.
    + destruct (Htokens files eq_refl) as [l [Hl Hmem]].
      rewrite Hlist in Hl. injection Hl as <-.
      destruct (proj1 (Hmem x) Hx) as [f [token [_ [_ [Hrun [_ Hlower]]]]]].
      rewrite Hlower. apply word_run_normalized. eauto.
    + unfold ReportExtractor.projects_from_file_names in Hlist. rewrite Hfiles in Hlist.
      discriminate.
Qed.

Lemma candidates_are_normalized_witness :
  normalized "hyperledger firefly".
Proof.
  apply (candidates_are_normalized
           (Scenario.schedule_client Scenario.test_schedule [])
           ["openproject"; "hyperledger firefly"; "projecty"]).
  - vm_compute. reflexivity.
  - right. left. reflexivity.
Defined.

(** X5. [list_possible_projects] raises exactly when the schedule cannot
    be used and listing the repository's files fails; the exception is
    then the listing's, not the schedule's. *)
Theorem discovery_raises_only_with_the_listing :
  forall (github_client : GitHubClient) (e : exn),
    ReportExtractor.list_possible_projects github_client = Raise e
    <-> schedule_unusable github_client /\ list_repo_files github_client = Raise e.
Proof.
  intros github_client e. rewrite schedule_unusable_iff_raises.
  unfold ReportExtractor.list_possible_projects.
  destruct (ReportExtractor.projects_from_schedule github_client) as [l|e0];
    cbn [try_except].
  - split; [discriminate | intros [[e1 H] _]; discriminate].
  - unfold ReportExtractor.projects_from_file_names.
    destruct (list_repo_files github_client) as [files|e1]; cbn [mbind Res_bind].
    + split; [discriminate | intros [_ H]; discriminate].
    + split; [intros [= ->]; eauto | intros [_ [= ->]]; reflexivity].
Qed.

(** ** More on correlation *)

(** X6. [determine_project_for_pr] returns the first candidate, in the
    order of the list, that occurs in the pull request's text: no
    candidate before it does. *)
Theorem correlation_returns_first_match :
  forall (pr : PullRequest) (candidates : list string) (c : string),
    ReportExtractor.determine_project_for_pr pr candidates = Some c ->
    exists before after,
      candidates = before ++ c :: after
      /\ occurs_in c (ReportExtractor.pr_text pr)
      /\ forall b, In b before -> ~ occurs_in b (ReportExtractor.pr_text pr).
Proof.
  intros pr candidates c. unfold ReportExtractor.determine_project_for_pr.
  induction candidates as [|x candidates IH]; [discriminate|]. cbn [find].
  destruct (Str.contains x (ReportExtractor.pr_text pr)) eqn:Hx.
  - intros [= ->]. exists [], candidates. split; [reflexivity|].
    split; [apply contains_spec, Hx | intros b []].
  - intros [before [after [-> [Hc Hbefore]]]]%IH.
    exists (x :: before), after. split; [reflexivity|]. split; [exact Hc|].
    intros b [<- | Hb]; [|exact (Hbefore b Hb)].
    intros Hocc%contains_spec. congruence.
Qed.

Lemma correlation_returns_first_match_witness :
  exists before after,
    ["projecty"; "firefly"; "hyperledger firefly"] = before ++ "firefly" :: after
    /\ forall b, In b before ->
         ~ occurs_in b (ReportExtractor.pr_text
                          (Scenario.titled "Annual review: Hyperledger FireFly")).
Proof.
  destruct (correlation_returns_first_match
              (Scenario.titled "Annual review: Hyperledger FireFly")
              ["projecty"; "firefly"; "hyperledger firefly"] "firefly" eq_refl)
    as [before [after [E [_ H]]]].
  exists before, after. split; assumption.
Defined.

(** ** More on report collection *)

(** On the characters U+0000..U+00FF, a literal under [re.IGNORECASE]
    matches at the head of a text exactly when the lowercased text starts
    with the lowercased literal. *)
Lemma lits_i_match p :
  forall at_start g s,
    Re.matched (Re.match_here (Re.lits_i p) at_start g s)
    = Str.startswith (Str.lower p) (Str.lower s).
Proof.
  induction p as [|x p IH]; intros at_start g s; [reflexivity|].
  cbn [Re.lits_i Re.match_here Str.lower].
  destruct s as [|c s]; [reflexivity|]. cbn [Str.lower Str.startswith].
  unfold Re.lit_i, Char.eqb. rewrite (Ascii.eqb_sym (Char.lower_c c)).
  destruct (Ascii.eqb (Char.lower_c x) (Char.lower_c c)); [|reflexivity].
  apply IH.
Qed.

(** Searching for it is searching the lowercased text for the lowercased
    literal. *)
Lemma lits_i_search p s :
  ReportExtractor.name_matches p s = Str.contains (Str.lower p) (Str.lower s).
Proof.
  unfold ReportExtractor.name_matches, Re.re_search. generalize true as at_start.
  induction s as [|c s IH]; intros at_start.
  - pose proof (lits_i_match p at_start None EmptyString) as Hm.
    cbn [Re.search_from]. cbn [Str.lower] in *. cbn [Str.contains].
    destruct (Re.match_here (Re.lits_i p) at_start None EmptyString);
      cbn [Re.matched] in *; rewrite <- Hm; reflexivity.
  - pose proof (lits_i_match p at_start None (String c s)) as Hm.
    cbn [Re.search_from]. cbn [Str.lower] in *. cbn [Str.contains].
    destruct (Re.match_here (Re.lits_i p) at_start None (String c s));
      cbn [Re.matched] in *; rewrite <- Hm; [reflexivity|].
    cbn [orb]. apply IH.
Qed.

Lemma filter_reports_loop project_name files :
  files_are_named files ->
  forall filtered,
    for_each (fun filtered f =>
                if Str.eqb (f_type f) "file" then
                  match f_name f with
                  | Some name =>
                      Ok (if ReportExtractor.name_matches project_name name
                          then filtered ++ [f] else filtered)
                  | None => Raise (KeyError "name")
                  end
                else Ok filtered)
             files filtered
    = Ok (filtered ++ List.filter (is_report_file project_name) files).
Proof.
  induction files as [|f files IH]; intros Hnamed filtered.
  - cbn. rewrite app_nil_r. reflexivity.
  - assert (files_are_named files) as Hrest
        by (intros f' Hin; apply Hnamed; right; exact Hin).
    cbn [for_each List.filter]. unfold is_report_file at 1.
    destruct (Str.eqb (f_type f) "file") eqn:Htype; cbn [andb mbind Res_bind].
    + destruct (f_name f) as [name|] eqn:Hname.
      * cbn [mbind Res_bind]. unfold default, from_option, id.
        rewrite (IH Hrest).
        destruct (ReportExtractor.name_matches project_name name);
          [rewrite <- app_assoc|]; reflexivity.
      * exfalso. apply (Hnamed f); [left; reflexivity | apply str_eqb_eq, Htype | exact Hname].
    + apply (IH Hrest).
Qed.

Lemma lower_append a b : Str.lower (a +:+ b) = Str.lower a +:+ Str.lower b.
Proof.
  induction a as [|c a IH]; [reflexivity|].
  rewrite app_cons. cbn [Str.lower]. rewrite app_cons, IH. reflexivity.
Qed.

(** The pattern of a project name is found in every text the name occurs
    in as it is written. *)
Lemma name_matches_verbatim project_name name :
  occurs_in project_name name -> ReportExtractor.name_matches project_name name = true.
Proof.
  intros [before [after ->]]. rewrite lits_i_search. apply contains_spec.
  exists (Str.lower before), (Str.lower after). rewrite !lower_append. reflexivity.
Qed.

(** X7. On a listing whose files have names, [filter_reports] returns, in
    the order of the listing, exactly the entries of type "file" in whose
    name the pattern made of the project name is found, and nothing for an
    empty project name; every file in whose name a non-empty project name
    occurs as it is written is among them. *)
Theorem filter_reports_keeps_matching_files :
  forall (files : list FileInfo) (project_name : string),
    files_are_named files ->
    ReportExtractor.filter_reports files project_name
    = Ok (if Str.is_empty project_name then []
          else List.filter (is_report_file project_name) files)
    /\ forall f name,
         project_name <> EmptyString ->
         In f files -> f_type f = "file" -> f_name f = Some name ->
         occurs_in project_name name ->
         In f (List.filter (is_report_file project_name) files).
Proof.
  intros files project_name Hnamed. split.
  - unfold ReportExtractor.filter_reports, Str.truthy.
    rewrite negb_involutive. destruct (Str.is_empty project_name); [reflexivity|].
    exact (filter_reports_loop project_name files Hnamed []).
  - intros f name _ Hin Htype Hname Hocc. apply filter_In. split; [exact Hin|].
    unfold is_report_file. rewrite Htype, Hname. unfold default, from_option, id.
    rewrite (name_matches_verbatim _ _ Hocc). reflexivity.
Qed.

Lemma filter_reports_keeps_matching_files_witness :
  ReportExtractor.filter_reports
    [Scenario.named_file "2024-annual-Hyperledger-FireFly.md";
     Scenario.named_file "README.md";
     {| f_type := "dir"; f_name := Some "firefly"; f_url := None |};
     Scenario.named_file "2025-q1-FIREFLY.md"]
    "firefly"
  = Ok [Scenario.named_file "2024-annual-Hyperledger-FireFly.md";
        Scenario.named_file "2025-q1-FIREFLY.md"].
Proof.
  refine (proj1 (filter_reports_keeps_matching_files _ "firefly" _)).
  intros f Hin _. repeat (destruct Hin as [<- | Hin]; [discriminate|]). destruct Hin.
Defined.

(** A file of type "file" without a name stops [filter_reports]. *)
Lemma filter_reports_inv project_name files :
  forall filtered kept,
    for_each (fun filtered f =>
                if Str.eqb (f_type f) "file" then
                  match f_name f with
                  | Some name =>
                      Ok (if ReportExtractor.name_matches project_name name
                          then filtered ++ [f] else filtered)
                  | None => Raise (KeyError "name")
                  end
                else Ok filtered)
             files filtered = Ok kept ->
    forall f, In f kept ->
      In f filtered
      \/ (In f files /\ f_type f = "file"
          /\ exists name, f_name f = Some name
                          /\ ReportExtractor.name_matches project_name name = true).
Proof.
  induction files as [|f0 files IH]; intros filtered kept.
  - intros [= <-] f Hf. left. exact Hf.
  - cbn [for_each].
    destruct (Str.eqb (f_type f0) "file") eqn:Htype; cbn [mbind Res_bind].
    + destruct (f_name f0) as [name|] eqn:Hname; [|discriminate]. cbn [mbind Res_bind].
      intros Hrun f Hf. destruct (IH _ _ Hrun f Hf) as [Hin | [Hin H]].
      * destruct (ReportExtractor.name_matches project_name name) eqn:Hm;
          [|left; exact Hin].
        apply in_app_or in Hin as [Hin | [<- | []]]; [left; exact Hin|].
        right. split; [left; reflexivity|]. split; [apply str_eqb_eq, Htype|].
        exists name. split; [exact Hname | exact Hm].
      * right. split; [right; exact Hin | exact H].
    + intros Hrun f Hf. destruct (IH _ _ Hrun f Hf) as [Hin | [Hin H]].
      * left. exact Hin.
      * right. split; [right; exact Hin | exact H].
Qed.

Lemma content_loop_inv github_client project_name files :
  forall reports kept,
    for_each (fun reports file_info =>
                content ← get_file_content github_client file_info;
                Ok (if Str.contains (Str.lower project_name) (Str.lower content)
                    then reports ++ [content] else reports))
             files reports = Ok kept ->
    forall r, In r kept ->
      In r reports
      \/ (occurs_in (Str.lower project_name) (Str.lower r)
          /\ exists f, In f files /\ get_file_content github_client f = Ok r).
Proof.
  induction files as [|f0 files IH]; intros reports kept.
  - intros [= <-] r Hr. left. exact Hr.
  - cbn [for_each].
    destruct (get_file_content github_client f0) as [content|e] eqn:Hcontent;
      [|discriminate]. cbn [mbind Res_bind].
    intros Hrun r Hr. destruct (IH _ _ Hrun r Hr) as [Hin | [Hocc [f [Hf Hc]]]].
    + destruct (Str.contains (Str.lower project_name) (Str.lower content)) eqn:Hm;
        [|left; exact Hin].
      apply in_app_or in Hin as [Hin | [<- | []]]; [left; exact Hin|].
      right. split; [apply contains_spec, Hm|].
      exists f0. split; [left; reflexivity | exact Hcontent].
    + right. split; [exact Hocc|]. exists f. split; [right; exact Hf | exact Hc].
Qed.

(** X8. The double filter of [extract_reports_from_repo]: every report
    returned is for a non-empty project name, has the lowercased project
    name in its lowercased text, and is the content of a listed entry of
    type "file" in whose name the pattern made of the project name is
    found. *)
Theorem repo_reports_mention_the_project :
  forall (github_client : GitHubClient) (project_name : string)
         (reports : list string) (r : string),
    ReportExtractor.extract_reports_from_repo github_client project_name = Ok reports ->
    In r reports ->
    project_name <> EmptyString
    /\ occurs_in (Str.lower project_name) (Str.lower r)
    /\ exists files f name,
         list_repo_files github_client = Ok files
         /\ In f files /\ f_type f = "file" /\ f_name f = Some name
         /\ ReportExtractor.name_matches project_name name = true
         /\ get_file_content github_client f = Ok r.
Proof.
  intros github_client project_name reports r.
  unfold ReportExtractor.extract_reports_from_repo.
  destruct (list_repo_files github_client) as [files|e]; [|discriminate].
  cbn [mbind Res_bind].
  destruct (ReportExtractor.filter_reports files project_name) as [matching|e] eqn:Hfilter;
    [|discriminate]. cbn [mbind Res_bind].
  intros Hrun Hr.
  destruct (content_loop_inv _ _ _ _ _ Hrun r Hr) as [[] | [Hocc [f [Hf Hc]]]].
  unfold ReportExtractor.filter_reports in Hfilter.
  destruct (negb (Str.truthy project_name)) eqn:Hempty.
  - injection Hfilter as <-. destruct Hf.
  - split; [intros ->; discriminate|]. split; [exact Hocc|].
    destruct (filter_reports_inv _ _ _ _ Hfilter f Hf)
      as [[] | [Hin [Htype [name [Hname Hn]]]]].
    exists files, f, name. auto 10.
Qed.

Lemma repo_reports_mention_the_project_witness :
  occurs_in (Str.lower "ProjectY") (Str.lower "Status of PROJECTY: active").
Proof.
  refine (proj1 (proj2 (repo_reports_mention_the_project
                   {| get_open_pull_requests := Ok [];
                      list_repo_files := Ok [Scenario.named_file "projecty-2025.md";
                                             Scenario.named_file "other.md"];
                      get_file_content := fun f =>
                        if decide (f_name f = Some "projecty-2025.md")
                        then Ok "Status of PROJECTY: active" else Ok "unrelated";
                      get_file_by_path := fun _ => Raise (HTTPError 404);
                      get_pr_files := fun _ => Ok [] |}
                   "ProjectY" ["Status of PROJECTY: active"] _ _ _))).
  - vm_compute. reflexivity.
  - left. reflexivity.
Defined.

Lemma pr_files_loop github_client files contents :
  Forall2 (fun f c => get_file_content github_client f = Ok c) files contents ->
  forall reports,
    for_each (fun reports file_info =>
                content ← get_file_content github_client file_info;
                Ok (if Str.truthy content then reports ++ [content] else reports))
             files reports
    = Ok (reports ++ List.filter Str.truthy contents).
Proof.
  induction 1 as [|f c files contents Hf _ IH]; intros reports.
  - cbn. rewrite app_nil_r. reflexivity.
  - cbn [for_each List.filter]. rewrite Hf. cbn [mbind Res_bind]. rewrite IH.
    destruct (Str.truthy c); [rewrite <- app_assoc|]; reflexivity.
Qed.

(** X9. When the changed files of a pull request can be read and at least
    one has content, [extract_reports_from_pr] returns the non-empty
    contents in the order of the listing, and the text of the pull request
    is no report. *)
Theorem pr_reports_are_file_contents :
  forall (pr : PullRequest) (github_client : GitHubClient) (number : Z)
         (pr_files : list FileInfo) (contents : list string),
    pr_number pr = Some number ->
    get_pr_files github_client number = Ok pr_files ->
    Forall2 (fun f c => get_file_content github_client f = Ok c) pr_files contents ->
    List.filter Str.truthy contents <> [] ->
    ReportExtractor.extract_reports_from_pr pr github_client
    = Ok (List.filter Str.truthy contents).
Proof.
  intros pr github_client number pr_files contents Hnumber Hfiles Hcontents Hsome.
  unfold ReportExtractor.extract_reports_from_pr.
  rewrite Hnumber, Hfiles. cbn [mbind Res_bind].
  rewrite (pr_files_loop _ _ _ Hcontents []). cbn [app mbind Res_bind].
  destruct (List.filter Str.truthy contents); [congruence | reflexivity].
Qed.

Lemma pr_reports_are_file_contents_witness :
  ReportExtractor.extract_reports_from_pr Scenario.firefly_report_pr
    {| get_open_pull_requests := Ok [];
       list_repo_files := Ok [];
       get_file_content := fun f => Ok (default EmptyString (f_name f));
       get_file_by_path := fun _ => Raise (HTTPError 404);
       get_pr_files := fun _ =>
         Ok [Scenario.named_file "first"; {| f_type := "file"; f_name := None; f_url := None |};
             Scenario.named_file "second"] |}
  = Ok ["first"; "second"].
Proof.
  apply (pr_reports_are_file_contents _ _ 2%Z
           [Scenario.named_file "first"; {| f_type := "file"; f_name := None; f_url := None |};
            Scenario.named_file "second"]
           ["first"; EmptyString; "second"]).
  - reflexivity.
  - reflexivity.
  - repeat constructor.
  - discriminate.
Defined.

Lemma pr_files_loop_nonempty github_client files :
  forall reports kept,
    Forall (fun r => r <> EmptyString) reports ->
    for_each (fun reports file_info =>
                content ← get_file_content github_client file_info;
                Ok (if Str.truthy content then reports ++ [content] else reports))
             files reports = Ok kept ->
    Forall (fun r => r <> EmptyString) kept.
Proof.
  induction files as [|f files IH]; intros reports kept Hreports.
  - intros [= <-]. exact Hreports.
  - cbn [for_each]. destruct (get_file_content github_client f) as [content|e];
      [|discriminate]. cbn [mbind Res_bind]. apply IH.
    destruct content as [|c content]; [exact Hreports|]. cbn [Str.truthy Str.is_empty negb].
    apply Forall_app. split; [exact Hreports | repeat constructor; discriminate].
Qed.

(** X10. [extract_reports_from_pr] never returns an empty report: each
    report it returns has at least one character. *)
Theorem pr_reports_are_never_empty :
  forall (pr : PullRequest) (github_client : GitHubClient) (reports : list string),
    ReportExtractor.extract_reports_from_pr pr github_client = Ok reports ->
    Forall (fun r => r <> EmptyString) reports.
Proof.
  intros pr github_client reports. unfold ReportExtractor.extract_reports_from_pr.
  assert (forall from_files,
             Forall (fun r : string => r <> EmptyString) from_files ->
             match from_files with
             | _ :: _ => Ok from_files
             | [] => if Str.truthy (ReportExtractor.text_report pr)
                     then Ok [ReportExtractor.text_report pr] else Ok []
             end = Ok reports ->
             Forall (fun r => r <> EmptyString) reports) as Hend.
  { intros from_files Hfrom. destruct from_files; [|intros [= <-]; exact Hfrom].
    destruct (ReportExtractor.text_report pr) as [|c text]; intros [= <-];
      repeat constructor. discriminate. }
  destruct (pr_number pr) as [number|]; [|exact (Hend [] ltac:(constructor))].
  destruct (get_pr_files github_client number) as [pr_files|e]; [|discriminate].
  cbn [mbind Res_bind].
  match goal with |- context [for_each ?body pr_files []] =>
    destruct (for_each body pr_files []) as [from_files|e] eqn:Hloop end;
    [|discriminate].
  cbn [mbind Res_bind]. apply Hend.
  exact (pr_files_loop_nonempty _ _ _ _ ltac:(constructor) Hloop).
Qed.

Lemma pr_reports_are_never_empty_witness :
  Forall (fun r => r <> EmptyString) ["The annual report."].
Proof.
  exact (pr_reports_are_never_empty Scenario.firefly_report_pr
           (Scenario.schedule_client Scenario.test_schedule []) _ eq_refl).
Defined.

(** X11. A changed file that cannot be read stops the collection: when
    the files before it can be read and reading it raises,
    [extract_reports_from_pr] raises that exception, whatever was
    collected before and whatever the pull request's text is. *)
Theorem unreadable_pr_file_raises :
  forall (pr : PullRequest) (github_client : GitHubClient) (number : Z)
         (before : list FileInfo) (contents : list string)
         (f : FileInfo) (after : list FileInfo) (e : exn),
    pr_number pr = Some number ->
    get_pr_files github_client number = Ok (before ++ f :: after) ->
    Forall2 (fun f c => get_file_content github_client f = Ok c) before contents ->
    get_file_content github_client f = Raise e ->
    ReportExtractor.extract_reports_from_pr pr github_client = Raise e.
Proof.
  intros pr github_client number before contents f after e Hnumber Hfiles Hbefore Hf.
  unfold ReportExtractor.extract_reports_from_pr.
  rewrite Hnumber, Hfiles. cbn [mbind Res_bind].
  assert (forall reports,
             for_each (fun reports file_info =>
                         content ← get_file_content github_client file_info;
                         Ok (if Str.truthy content then reports ++ [content] else reports))
                      (before ++ f :: after) reports = Raise e) as Hloop.
  { clear Hfiles. induction Hbefore as [|f0 c before contents Hf0 _ IH]; intros reports.
    - cbn [app for_each]. rewrite Hf. reflexivity.
    - cbn [app for_each]. rewrite Hf0. cbn [mbind Res_bind]. apply IH. }
  rewrite Hloop. reflexivity.
Qed.

Lemma unreadable_pr_file_raises_witness :
  ReportExtractor.extract_reports_from_pr Scenario.firefly_report_pr
    {| get_open_pull_requests := Ok [];
       list_repo_files := Ok [];
       get_file_content := fun f =>
         match f_name f with Some name => Ok name | None => Raise (HTTPError 404) end;
       get_file_by_path := fun _ => Raise (HTTPError 404);
       get_pr_files := fun _ =>
         Ok [Scenario.named_file "first"; {| f_type := "file"; f_name := None; f_url := None |};
             Scenario.named_file "second"] |}
  = Raise (HTTPError 404).
Proof.
  apply (unreadable_pr_file_raises _ _ 2%Z [Scenario.named_file "first"] ["first"]
           {| f_type := "file"; f_name := None; f_url := None |}
           [Scenario.named_file "second"]).
  - reflexivity.
  - reflexivity.
  - repeat constructor.
  - reflexivity.
Defined.

(** ** More on the analysis engine *)

Lemma lstrip_spec p s :
  exists before, s = before +:+ Str.lstrip_by p s /\ Str.all p before = true.
Proof.
  induction s as [|c s IH]; [exists EmptyString; auto|]. simpl.
  destruct (p c) eqn:Hc.
  - destruct IH as [before [E Hb]]. exists (String c before).
    rewrite app_cons. split; [f_equal; exact E | simpl; rewrite Hc, Hb; reflexivity].
  - exists EmptyString. auto.
Qed.

Lemma rstrip_spec p s :
  exists after, s = Str.rstrip_by p s +:+ after /\ Str.all p after = true.
Proof.
  induction s as [|c s IH]; [exists EmptyString; auto|]. simpl.
  destruct IH as [after [E Ha]].
  destruct (Str.is_empty (Str.rstrip_by p s) && p c) eqn:Hc.
  - apply andb_true_iff in Hc as [Hr Hc].
    destruct (Str.rstrip_by p s); [|discriminate]. rewrite app_empty_l in E.
    exists (String c after). rewrite app_empty_l.
    split; [f_equal; exact E | simpl; rewrite Hc, Ha; reflexivity].
  - exists after. rewrite app_cons. split; [f_equal; exact E | exact Ha].
Qed.

Lemma rstrip_last p s :
  forall s' c, Str.rstrip_by p s = s' +:+ String c EmptyString -> p c = false.
Proof.
  induction s as [|c0 s IH]; intros s' c; simpl.
  - destruct s'; discriminate.
  - destruct (Str.is_empty (Str.rstrip_by p s) && p c0) eqn:Hc.
    + destruct s'; discriminate.
    + destruct s' as [|x s'].
      * rewrite app_empty_l. intros [= -> Hr]. rewrite Hr in Hc. exact Hc.
      * rewrite app_cons. intros [= _ Hr]. exact (IH _ _ Hr).
Qed.

(** [s.strip()]: what is left has no whitespace at either end, and the
    text is what is left between two runs of whitespace. *)
Lemma strip_spec s :
  trimmed (Str.strip s)
  /\ exists before after,
       s = before +:+ Str.strip s +:+ after
       /\ Str.all Char.isspace before = true /\ Str.all Char.isspace after = true.
Proof.
  unfold Str.strip, Str.strip_by. split; [split|].
  - intros c s' E.
    pose proof (rstrip_head Char.isspace _ (lstrip_head Char.isspace s)) as H.
    rewrite E in H. exact H.
  - apply rstrip_last.
  - destruct (lstrip_spec Char.isspace s) as [before [E Hb]].
    destruct (rstrip_spec Char.isspace (Str.lstrip_by Char.isspace s)) as [after [E' Ha]].
    exists before, after. rewrite <- E', <- E. auto.
Qed.

(** X12. The URL the engine posts to has exactly one slash before
    "api/generate": [__init__] removes every trailing slash of the
    configured URL, and nothing else. *)
Theorem init_strips_trailing_slashes :
  forall (llm_server_url model : string),
    let base := AnalysisEngine.llm_server_url (AnalysisEngine.init llm_server_url model) in
    not_ending_with "/" base
    /\ exists slashes,
         llm_server_url = base +:+ slashes
         /\ Str.all (Char.eqb "/") slashes = true.
Proof.
  intros llm_server_url model. cbn. unfold Str.rstrip_char. split.
  - intros s' E. apply rstrip_last in E. discriminate.
  - apply rstrip_spec.
Qed.

Section EngineCalls.
Context {L : Type} (post : Endpoint L) (self : AnalysisEngine.t).

(** X13. What [analyze_single_report] returns is the text the endpoint
    generated for the report's prompt (150 tokens at most, temperature 0)
    without the whitespace around it; the call reads and writes nothing
    but the endpoint. *)
Theorem analysis_is_the_stripped_response :
  forall (report : string) (index : nat) (w w' : World L) (thought : string),
    AnalysisEngine.analyze_single_report post self report index w = (Ok thought, w') ->
    trimmed thought
    /\ out_file w' = out_file w /\ sink_log w' = sink_log w
    /\ exists response before after,
         post (AnalysisEngine.llm_server_url self +:+ "/api/generate")
              {| p_model := AnalysisEngine.model self;
                 p_prompt := AnalysisEngine.single_report_prompt report index;
                 p_max_tokens := 150; p_temperature := 0;
                 p_stop := [nl]; p_stream := false |}
              (llm w)
         = (Ok response, llm w')
         /\ response = before +:+ thought +:+ after
         /\ Str.all Char.isspace before = true /\ Str.all Char.isspace after = true.
Proof.
  intros report index w w' thought.
  unfold AnalysisEngine.analyze_single_report, AnalysisEngine.generate, mbind, M_bind,
    mret, M_ret.
  destruct (post _ _ (llm w)) as [[response|e] l']; [|discriminate].
  intros [= <- <-]. cbn [out_file sink_log llm].
  destruct (strip_spec response) as [Htrim [before [after H]]].
  split; [exact Htrim|]. split; [reflexivity|]. split; [reflexivity|].
  exists response, before, after. split; [reflexivity | exact H].
Qed.

End EngineCalls.

Lemma analysis_is_the_stripped_response_witness :
  trimmed "seen 268 characters".
Proof.
  exact (proj1 (analysis_is_the_stripped_response Scenario.echo Scenario.engine
                  "first report" 1 Scenario.fresh
                  {| out_file := None; sink_log := []; llm := 1 |}
                  "seen 268 characters" eq_refl)).
Defined.

Lemma occurs_in_app_l needle a b : occurs_in needle a -> occurs_in needle (a +:+ b).
Proof.
  intros [before [after ->]]. exists before, (after +:+ b).
  rewrite !app_assoc_str. reflexivity.
Qed.

Lemma occurs_in_app_r needle a b : occurs_in needle b -> occurs_in needle (a +:+ b).
Proof.
  intros [before [after ->]]. exists (a +:+ before), after.
  rewrite !app_assoc_str. reflexivity.
Qed.

Lemma occurs_in_self s : occurs_in s s.
Proof. exists EmptyString, EmptyString. rewrite app_empty_l, app_empty_r. reflexivity. Qed.

Lemma occurs_in_join sep parts part :
  In part parts -> occurs_in part (Str.join sep parts).
Proof.
  induction parts as [|p parts IH]; [intros []|].
  intros [<- | Hin]; cbn [Str.join]; destruct parts as [|q parts].
  - apply occurs_in_self.
  - apply occurs_in_app_l, occurs_in_self.
  - destruct Hin.
  - apply occurs_in_app_r, occurs_in_app_r, IH, Hin.
Qed.

(** X14. Nothing is lost between the two stages: every analysis step
    occurs, as it is, in the prompt of the final summary. *)
Theorem final_prompt_holds_every_step :
  forall (steps : list string) (step : string),
    In step steps -> occurs_in step (AnalysisEngine.final_prompt steps).
Proof.
  intros steps step Hin. unfold AnalysisEngine.final_prompt.
  do 4 apply occurs_in_app_r. apply occurs_in_app_l.
  apply occurs_in_join, Hin.
Qed.

Lemma final_prompt_holds_every_step_witness :
  occurs_in (AIAgent.step_text 2 "second thought")
    (AnalysisEngine.final_prompt
       [AIAgent.step_text 1 "first thought"; AIAgent.step_text 2 "second thought"]).
Proof.
  apply final_prompt_holds_every_step. right. left. reflexivity.
Defined.

(** The loop of [construct_prompt] only adds to the prompt. *)
Lemma add_report_sections_spec reports :
  forall prompt idx,
    exists sections,
      add_report_sections prompt idx reports = prompt +:+ sections
      /\ forall i report,
           reports !! i = Some report ->
           occurs_in (report_section (idx + i) report) sections.
Proof.
  induction reports as [|r reports IH]; intros prompt idx.
  - exists EmptyString. rewrite app_empty_r. split; [reflexivity|]. intros i report [=].
  - cbn [add_report_sections].
    destruct (IH (prompt +:+ report_section idx r) (S idx)) as [sections [E Hocc]].
    exists (report_section idx r +:+ sections). rewrite E, app_assoc_str.
    split; [reflexivity|]. intros [|i] report.
    + intros [= <-]. rewrite Nat.add_0_r. apply occurs_in_app_l, occurs_in_self.
    + intros Hi. rewrite Nat.add_succ_r. apply occurs_in_app_r, (Hocc i report Hi).
Qed.

(** X15. [construct_prompt] opens with the instructions, closes with the
    request for a summary, and in between holds every report under its
    own heading: "Report i:" for the i-th report, counted from 1, the
    report's text after it, and a blank line. *)
Theorem construct_prompt_holds_every_report :
  forall (reports : list string),
    exists sections,
      construct_prompt reports = prompt_header +:+ sections +:+ prompt_closing
      /\ forall i report,
           reports !! i = Some report ->
           occurs_in ("Report " +:+ Str.of_nat (S i) +:+ ":" +:+ nl +:+ report +:+ nl +:+ nl)
                     sections.
Proof.
  intros reports. unfold construct_prompt.
  destruct (add_report_sections_spec reports prompt_header 1) as [sections [-> Hocc]].
  exists sections. rewrite app_assoc_str. split; [reflexivity|].
  intros i report Hi. exact (Hocc i report Hi).
Qed.

(** ** More on the pipeline and the run *)

Lemma keeps_ret {L A} (P : World L -> Prop) (a : A) : keeps P (mret a : M L A).
Proof. intros w Hw. exact Hw. Qed.

Lemma keeps_lift {L A} (P : World L -> Prop) (r : Res A) : keeps P (lift r : M L A).
Proof. intros w Hw. exact Hw. Qed.

Lemma keeps_bind {L A B} (P : World L -> Prop) (m : M L A) (k : A -> M L B) :
  keeps P m -> (forall a, keeps P (k a)) -> keeps P (m ≫= k).
Proof.
  intros Hm Hk w Hw. unfold mbind, M_bind. specialize (Hm w Hw).
  destruct (m w) as [[a|e] w']; cbn [snd] in *; [apply Hk, Hm | exact Hm].
Qed.

Section Invariants.
Context {L : Type} (post : Endpoint L) (agent : AIAgent.t).

(** A property of the file and of the log of writes. *)
Variable P : World L -> Prop.
Hypothesis P_ignores_endpoint :
  forall w l, P w -> P {| out_file := out_file w; sink_log := sink_log w; llm := l |}.

Lemma generate_keeps payload :
  keeps P (AnalysisEngine.generate post (AIAgent.analysis_engine agent) payload).
Proof.
  intros w Hw. unfold AnalysisEngine.generate.
  destruct (post _ payload (llm w)) as [r l']. cbn [snd]. apply P_ignores_endpoint, Hw.
Qed.

Lemma analyze_single_report_keeps report index :
  keeps P (AnalysisEngine.analyze_single_report post (AIAgent.analysis_engine agent)
             report index).
Proof.
  unfold AnalysisEngine.analyze_single_report.
  apply keeps_bind; [apply generate_keeps | intros a; apply keeps_ret].
Qed.

Lemma analyze_reports_keeps steps :
  keeps P (AnalysisEngine.analyze_reports post (AIAgent.analysis_engine agent) steps).
Proof.
  unfold AnalysisEngine.analyze_reports.
  apply keeps_bind; [apply generate_keeps | intros a; apply keeps_ret].
Qed.

(** When writing under [project] keeps [P], so does the whole pipeline for
    [project]. *)
Lemma analyze_each_keeps project :
  (forall content, keeps P (ResultManager.write_output project content)) ->
  forall reports idx steps, keeps P (AIAgent.analyze_each post agent project reports idx steps).
Proof.
  intros Hwrite. induction reports as [|report reports IH]; intros idx steps.
  - apply keeps_ret.
  - cbn [AIAgent.analyze_each].
    apply keeps_bind; [apply analyze_single_report_keeps | intros step].
    apply keeps_bind; [apply Hwrite | intros _; apply IH].
Qed.

Lemma run_pipeline_keeps project reports :
  (forall content, keeps P (ResultManager.write_output project content)) ->
  keeps P (AIAgent.run_pipeline post agent project reports).
Proof.
  intros Hwrite. unfold AIAgent.run_pipeline.
  apply keeps_bind; [apply analyze_each_keeps, Hwrite | intros steps].
  apply keeps_bind; [apply analyze_reports_keeps | intros summary; apply Hwrite].
Qed.

Lemma process_pull_request_keeps pr candidate_projects :
  (forall project content,
      ReportExtractor.determine_project_for_pr pr candidate_projects = Some project ->
      project <> EmptyString ->
      keeps P (ResultManager.write_output project content)) ->
  keeps P (AIAgent.process_pull_request post agent pr candidate_projects).
Proof.
  intros Hwrite. unfold AIAgent.process_pull_request.
  destruct (ReportExtractor.determine_project_for_pr pr candidate_projects)
    as [project|]; [|apply keeps_ret].
  destruct project as [|c project]; [apply keeps_ret|].
  cbn [Str.truthy Str.is_empty negb].
  apply keeps_bind; [apply keeps_lift | intros from_pr].
  apply keeps_bind; [apply keeps_lift | intros from_repo].
  destruct (from_pr ++ from_repo); [apply keeps_ret|].
  apply run_pipeline_keeps. intros content. apply Hwrite; [reflexivity | discriminate].
Qed.

Lemma process_all_keeps pull_requests candidate_projects :
  (forall pr project content,
      In pr pull_requests ->
      ReportExtractor.determine_project_for_pr pr candidate_projects = Some project ->
      project <> EmptyString ->
      keeps P (ResultManager.write_output project content)) ->
  keeps P (AIAgent.process_all post agent pull_requests candidate_projects).
Proof.
  induction pull_requests as [|pr pull_requests IH]; intros Hwrite.
  - apply keeps_ret.
  - cbn [AIAgent.process_all]. apply keeps_bind.
    + apply process_pull_request_keeps. intros project content.
      apply Hwrite. left. reflexivity.
    + intros _. apply IH. intros pr' project content Hin.
      apply Hwrite. right. exact Hin.
Qed.

Lemma run_keeps :
  (forall candidate_projects pull_requests pr project content,
      ReportExtractor.list_possible_projects (AIAgent.github_client agent)
        = Ok candidate_projects ->
      get_open_pull_requests (AIAgent.github_client agent) = Ok pull_requests ->
      In pr pull_requests ->
      ReportExtractor.determine_project_for_pr pr candidate_projects = Some project ->
      project <> EmptyString ->
      keeps P (ResultManager.write_output project content)) ->
  keeps P (AIAgent.run post agent).
Proof.
  intros Hwrite w Hw. unfold AIAgent.run, mbind, M_bind, lift.
  destruct (ReportExtractor.list_possible_projects (AIAgent.github_client agent))
    as [candidate_projects|e] eqn:Hcands; [|exact Hw].
  destruct (get_open_pull_requests (AIAgent.github_client agent))
    as [pull_requests|e] eqn:Hprs; [|exact Hw].
  assert (P (snd (AIAgent.process_all post agent pull_requests candidate_projects w)))
    as Hall.
  { apply (process_all_keeps pull_requests candidate_projects); [|exact Hw].
    intros pr project content. apply (Hwrite _ _ _ _ _ eq_refl eq_refl). }
  destruct pull_requests; [exact Hw | exact Hall].
Qed.

End Invariants.

(** X17. Whatever [run] writes, it writes under the name of a candidate
    that occurs in the text of an open pull request: the log of writes
    grows by contents ["<project>:\n\n...\n"] whose project is a non-empty
    candidate of the discovery and occurs in the lowercased text of one of
    the listed pull requests. *)
Theorem run_writes_for_matched_candidates :
  forall {L : Type} (post : Endpoint L) (agent : AIAgent.t)
         (candidate_projects : list string) (pull_requests : list PullRequest)
         (w : World L),
    ReportExtractor.list_possible_projects (AIAgent.github_client agent)
      = Ok candidate_projects ->
    get_open_pull_requests (AIAgent.github_client agent) = Ok pull_requests ->
    grown_from candidate_projects pull_requests w (snd (AIAgent.run post agent w)).
Proof.
  intros L post agent candidate_projects pull_requests w Hcands Hprs.
  apply (run_keeps post agent (grown_from candidate_projects pull_requests w)).
  - intros w0 l Hw0. exact Hw0.
  - intros cands prs pr project content Hcands' Hprs' Hpr Hfind Hne w0 [added [Hlog Hadded]].
    rewrite Hcands in Hcands'. rewrite Hprs in Hprs'.
    injection Hcands' as <-. injection Hprs' as <-.
    exists (added ++ [ResultManager.rendered project content]). cbn [snd sink_log].
    unfold ResultManager.write_output. cbn [snd sink_log].
    rewrite Hlog, <- app_assoc. split; [reflexivity|].
    apply Forall_app. split; [exact Hadded|]. constructor; [|constructor].
    exists project, content, pr. split; [reflexivity|]. split; [exact Hne|].
    unfold ReportExtractor.determine_project_for_pr in Hfind.
    apply find_some in Hfind as [Hin Hc]. split; [exact Hin|]. split; [exact Hpr|].
    apply contains_spec, Hc.
  - exists []. rewrite app_nil_r. split; [reflexivity | constructor].
Qed.

Lemma run_writes_for_matched_candidates_witness :
  grown_from ["openproject"; "hyperledger firefly"; "projecty"]
    [Scenario.firefly_report_pr] Scenario.fresh
    (snd (AIAgent.run Scenario.echo firefly_agent Scenario.fresh))
  /\ sink_log (snd (AIAgent.run Scenario.echo firefly_agent Scenario.fresh))
     = ["hyperledger firefly:" +:+ nl +:+ nl
        +:+ "Step 1 Analysis:" +:+ nl +:+ "seen 274 characters" +:+ nl;
        "hyperledger firefly:" +:+ nl +:+ nl
        +:+ "Final Summary:" +:+ nl +:+ "seen 249 characters" +:+ nl].
Proof.
  split.
  - apply run_writes_for_matched_candidates.
    + vm_compute. reflexivity.
    + reflexivity.
  - vm_compute. reflexivity.
Defined.

Section MorePipeline.
Context {L : Type} (post : Endpoint L) (agent : AIAgent.t).

(** X18. When the pipeline completes on [n] reports, [write_output] has
    been called [n + 1] times: once after each analysis, with the steps so
    far, and once with the final summary, which is what the file holds at
    the end, in place of the steps; the summary has no whitespace around
    it. *)
Theorem completed_pipeline_leaves_the_summary :
  forall (project : string) (reports : list string) (w w' : World L),
    AIAgent.run_pipeline post agent project reports w = (Ok tt, w') ->
    exists steps final_summary,
      length steps = length reports
      /\ trimmed final_summary
      /\ sink_log w'
         = sink_log w
           ++ map (fun j => step_log project (take j steps)) (seq 1 (length reports))
           ++ [ResultManager.rendered project ("Final Summary:" +:+ nl +:+ final_summary)]
      /\ out_file w'
         = Some (ResultManager.rendered project ("Final Summary:" +:+ nl +:+ final_summary)).
Proof.
  intros project reports w w'. unfold AIAgent.run_pipeline, mbind at 1, M_bind at 1.
  destruct (AIAgent.analyze_each post agent project reports 1 [] w)
    as [[steps|e] w1] eqn:Hloop; [|discriminate].
  destruct (analyze_each_completed post agent project reports 1 [] w steps w1 Hloop)
    as [[thoughts [Hlen Hsteps]] [Hsink _]].
  unfold AnalysisEngine.analyze_reports, AnalysisEngine.generate, mbind, M_bind,
    mret, M_ret.
  destruct (post _ _ (llm w1)) as [[response|e] l']; [|discriminate].
  intros [= <-]. exists steps, (Str.strip response). cbn [sink_log out_file].
  split; [rewrite Hsteps, length_app, length_imap; cbn; exact Hlen|].
  split; [apply strip_spec|]. split; [|reflexivity].
  rewrite Hsink, <- app_assoc. reflexivity.
Qed.

(** X19. [run] does nothing when no candidate occurs in the text of any
    open pull request: no file is listed or read for reports, the endpoint
    is not called, nothing is written, and [run] completes. *)
Theorem run_without_match_does_nothing :
  forall (candidate_projects : list string) (pull_requests : list PullRequest)
         (w : World L),
    ReportExtractor.list_possible_projects (AIAgent.github_client agent)
      = Ok candidate_projects ->
    get_open_pull_requests (AIAgent.github_client agent) = Ok pull_requests ->
    (forall pr c, In pr pull_requests -> In c candidate_projects ->
                  ~ occurs_in c (ReportExtractor.pr_text pr)) ->
    AIAgent.run post agent w = (Ok tt, w).
Proof.
  intros candidate_projects pull_requests w Hcands Hprs Hnone.
  unfold AIAgent.run, mbind, M_bind, lift. rewrite Hcands, Hprs.
  assert (AIAgent.process_all post agent pull_requests candidate_projects w = (Ok tt, w))
    as Hall.
  { clear Hprs. induction pull_requests as [|pr pull_requests IH]; [reflexivity|].
    cbn [AIAgent.process_all]. unfold mbind, M_bind.
    unfold AIAgent.process_pull_request.
    destruct (ReportExtractor.determine_project_for_pr pr candidate_projects)
      as [project|] eqn:Hfind.
    - unfold ReportExtractor.determine_project_for_pr in Hfind.
      apply find_some in Hfind as [Hin Hc]. apply contains_spec in Hc.
      destruct (Hnone pr project (or_introl eq_refl) Hin Hc).
    - unfold mret, M_ret. apply IH. intros pr' c Hpr'. apply Hnone. right. exact Hpr'. }
  destruct pull_requests; [reflexivity | exact Hall].
Qed.

End MorePipeline.

Lemma run_without_match_does_nothing_witness :
  AIAgent.run Scenario.echo
    {| AIAgent.github_client :=
         {| get_open_pull_requests := Ok [Scenario.titled "Fix typo in README"];
            list_repo_files := Ok [];
            get_file_content := fun _ => Raise (HTTPError 500);
            get_file_by_path := fun _ => Raise (HTTPError 404);
            get_pr_files := fun _ => Raise (HTTPError 500) |};
       AIAgent.analysis_engine := Scenario.engine |}
    Scenario.fresh
  = (Ok tt, Scenario.fresh).
Proof.
  apply (run_without_match_does_nothing _ _ [] [Scenario.titled "Fix typo in README"]).
  - reflexivity.
  - reflexivity.
  - intros pr c _ [].
Defined.

Lemma completed_pipeline_leaves_the_summary_witness :
  exists (steps : list string) final_summary,
    length steps = 2
    /\ out_file (snd (AIAgent.run_pipeline Scenario.echo Scenario.two_pr_agent "projecty"
                        ["first report"; "second report"] Scenario.fresh))
       = Some (ResultManager.rendered "projecty"
                 ("Final Summary:" +:+ nl +:+ final_summary)).
Proof.
  destruct (completed_pipeline_leaves_the_summary Scenario.echo Scenario.two_pr_agent
              "projecty" ["first report"; "second report"] Scenario.fresh
              (snd (AIAgent.run_pipeline Scenario.echo Scenario.two_pr_agent "projecty"
                      ["first report"; "second report"] Scenario.fresh)))
    as [steps [final_summary [Hlen [_ [_ Hfile]]]]].
  - vm_compute. reflexivity.
  - exists steps, final_summary. split; [exact Hlen | exact Hfile].
Defined.

(** ** The recursive listing of [GitHubClient] *)

Lemma collect_files_only_files list_sub :
  (forall path sub, list_sub path = Some (Ok sub) ->
                    Forall (fun f => GitHub.i_type f = "file") sub) ->
  forall items files result,
    Forall (fun f => GitHub.i_type f = "file") files ->
    GitHub.collect_files list_sub items files = Some (Ok result) ->
    Forall (fun f => GitHub.i_type f = "file") result.
Proof.
  intros Hsub. induction items as [|item items IH]; intros files result Hfiles.
  - intros [= <-]. exact Hfiles.
  - cbn [GitHub.collect_files].
    destruct (Str.eqb (GitHub.i_type item) "file") eqn:Hfile.
    + apply IH, Forall_app. split; [exact Hfiles|].
      constructor; [apply str_eqb_eq, Hfile | constructor].
    + destruct (Str.eqb (GitHub.i_type item) "dir"); [|apply IH, Hfiles].
      destruct (list_sub (GitHub.i_path item)) as [[sub|e]|] eqn:Hcall;
        [|discriminate|discriminate].
      apply IH, Forall_app. split; [exact Hfiles | exact (Hsub _ _ Hcall)].
Qed.

(** X20. [list_repo_files] returns files only: whatever the repository
    holds, every item of a returned list has type "file"; directories are
    replaced by the files below them and items of any other type are left
    out. *)
Theorem list_repo_files_returns_files_only :
  forall (contents : GitHub.Contents) (fuel : nat) (path : string)
         (files : list GitHub.Item),
    GitHub.list_repo_files contents fuel path = Some (Ok files) ->
    Forall (fun f => GitHub.i_type f = "file") files.
Proof.
  intros contents. induction fuel as [|fuel IH]; intros path files; [discriminate|].
  cbn [GitHub.list_repo_files].
  destruct (contents path) as [items|e]; [|discriminate].
  apply (collect_files_only_files _ IH); constructor.
Qed.

Lemma list_repo_files_returns_files_only_witness :
  Forall (fun f => GitHub.i_type f = "file")
    [GitHub.item "file" "README.md"; GitHub.item "file" "docs/a.md";
     GitHub.item "file" "docs/img/p.png"; GitHub.item "file" "LICENSE"].
Proof.
  apply (list_repo_files_returns_files_only GitHub.small_repo 3 EmptyString).
  vm_compute. reflexivity.
Defined.

Lemma collect_files_total list_sub items :
  (forall item, In item items -> GitHub.i_type item = "dir" ->
                exists r, list_sub (GitHub.i_path item) = Some r) ->
  forall files, exists r, GitHub.collect_files list_sub items files = Some r.
Proof.
  induction items as [|item items IH]; intros Hsub files; [eexists; reflexivity|].
  assert (forall files', exists r, GitHub.collect_files list_sub items files' = Some r)
    as Hrest by (apply IH; intros item' Hin; apply Hsub; right; exact Hin).
  cbn [GitHub.collect_files].
  destruct (Str.eqb (GitHub.i_type item) "file"); [apply Hrest|].
  destruct (Str.eqb (GitHub.i_type item) "dir") eqn:Hdir; [|apply Hrest].
  destruct (Hsub item (or_introl eq_refl) (proj1 (str_eqb_eq _ _) Hdir)) as [[sub|e] ->];
    [apply Hrest | eexists; reflexivity].
Qed.

Lemma collect_files_more_fuel (list_sub list_sub' : string -> option (Res (list GitHub.Item))) :
  (forall path r, list_sub path = Some r -> list_sub' path = Some r) ->
  forall items files r,
    GitHub.collect_files list_sub items files = Some r ->
    GitHub.collect_files list_sub' items files = Some r.
Proof.
  intros Hsub. induction items as [|item items IH]; intros files r; [auto|].
  cbn [GitHub.collect_files].
  destruct (Str.eqb (GitHub.i_type item) "file"); [apply IH|].
  destruct (Str.eqb (GitHub.i_type item) "dir"); [|apply IH].
  destruct (list_sub (GitHub.i_path item)) as [[sub|e]|] eqn:Hcall; [| |discriminate].
  - rewrite (Hsub _ _ Hcall). apply IH.
  - rewrite (Hsub _ _ Hcall). auto.
Qed.

(** The bound on the recursion is no part of the result. *)
Lemma list_repo_files_more_fuel contents :
  forall fuel fuel' path r,
    fuel <= fuel' ->
    GitHub.list_repo_files contents fuel path = Some r ->
    GitHub.list_repo_files contents fuel' path = Some r.
Proof.
  induction fuel as [|fuel IH]; intros fuel' path r Hle; [discriminate|].
  destruct fuel' as [|fuel']; [lia|]. cbn [GitHub.list_repo_files].
  destruct (contents path) as [items|e]; [|auto].
  apply collect_files_more_fuel. intros path' r'. apply IH. lia.
Qed.

Lemma list_repo_files_within_rank contents rank :
  GitHub.ranked contents rank ->
  forall fuel path,
    rank path < fuel -> exists r, GitHub.list_repo_files contents fuel path = Some r.
Proof.
  intros Hranked. induction fuel as [|fuel IH]; intros path Hfuel; [lia|].
  cbn [GitHub.list_repo_files].
  destruct (contents path) as [items|e] eqn:Hitems; [|eexists; reflexivity].
  apply collect_files_total. intros item Hin Hdir. apply IH.
  specialize (Hranked path items item Hitems Hin Hdir). lia.
Qed.

(** X21. The recursion ends: when the directories of the repository get
    shallower on the way down, as [rank] measures it, [list_repo_files]
    returns, with a list or with the failure of a request, once the
    nesting allowed exceeds [rank path], and what it returns does not
    depend on the nesting allowed. *)
Theorem list_repo_files_returns :
  forall (contents : GitHub.Contents) (rank : string -> nat) (path : string),
    GitHub.ranked contents rank ->
    exists r,
      forall fuel, rank path < fuel -> GitHub.list_repo_files contents fuel path = Some r.
Proof.
  intros contents rank path Hranked.
  destruct (list_repo_files_within_rank contents rank Hranked (S (rank path)) path)
    as [r Hr]; [lia|].
  exists r. intros fuel Hfuel.
  apply (list_repo_files_more_fuel contents (S (rank path)) fuel); [lia | exact Hr].
Qed.

Lemma small_repo_ranked : GitHub.ranked GitHub.small_repo GitHub.small_repo_rank.
Proof.
  intros path items it. unfold GitHub.small_repo, GitHub.small_repo_rank.
  repeat case_decide; subst; try discriminate; intros [= <-] Hin Hdir;
    repeat (destruct Hin as [<- | Hin]; [try discriminate|]); try destruct Hin;
    vm_compute; lia.
Defined.

Lemma list_repo_files_returns_witness :
  exists r, GitHub.list_repo_files GitHub.small_repo 5 EmptyString = Some r.
Proof.
  destruct (list_repo_files_returns GitHub.small_repo GitHub.small_repo_rank EmptyString
              small_repo_ranked) as [r Hr].
  exists r. apply Hr. vm_compute. lia.
Defined.

Lemma collect_files_parts contents fuel :
  forall items files result,
    GitHub.collect_files (GitHub.list_repo_files contents fuel) items files
    = Some (Ok result) ->
    exists parts,
      Forall2 (GitHub.contributes contents fuel) items parts
      /\ result = files ++ concat parts.
Proof.
  induction items as [|it items IH]; intros files result.
  - intros [= <-]. exists []. split; [constructor | rewrite app_nil_r; reflexivity].
  - cbn [GitHub.collect_files].
    destruct (Str.eqb (GitHub.i_type it) "file") eqn:Hfile.
    + intros [parts [Hparts ->]]%IH. exists ([it] :: parts). split.
      * constructor; [left; split; [apply str_eqb_eq, Hfile | reflexivity] | exact Hparts].
      * cbn [concat]. rewrite <- app_assoc. reflexivity.
    + apply str_eqb_neq in Hfile.
      destruct (Str.eqb (GitHub.i_type it) "dir") eqn:Hdir.
      * destruct (GitHub.list_repo_files contents fuel (GitHub.i_path it))
          as [[sub|e]|] eqn:Hcall; [|discriminate|discriminate].
        intros [parts [Hparts ->]]%IH. exists (sub :: parts). split.
        -- constructor; [|exact Hparts]. right. left.
           split; [exact Hfile|]. split; [apply str_eqb_eq, Hdir | exact Hcall].
        -- cbn [concat]. rewrite <- app_assoc. reflexivity.
      * apply str_eqb_neq in Hdir.
        intros [parts [Hparts ->]]%IH. exists ([] :: parts). split.
        -- constructor; [|exact Hparts]. right. right. auto.
        -- reflexivity.
Qed.

(** X22. The flattened listing: a list [list_repo_files] returns for a
    path is, in the order of the directory's listing, each file of the
    directory itself, each subdirectory replaced by the list returned for
    it, and nothing for an item of another type. *)
Theorem list_repo_files_flattens :
  forall (contents : GitHub.Contents) (fuel : nat) (path : string)
         (files : list GitHub.Item),
    GitHub.list_repo_files contents (S fuel) path = Some (Ok files) ->
    exists items parts,
      contents path = Ok items
      /\ Forall2 (GitHub.contributes contents fuel) items parts
      /\ files = concat parts.
Proof.
  intros contents fuel path files. cbn [GitHub.list_repo_files].
  destruct (contents path) as [items|e]; [|discriminate].
  intros [parts [Hparts ->]]%collect_files_parts.
  exists items, parts. auto.
Qed.

Lemma list_repo_files_flattens_witness :
  exists parts,
    Forall2 (GitHub.contributes GitHub.small_repo 2)
      [GitHub.item "file" "README.md"; GitHub.item "dir" "docs";
       GitHub.item "symlink" "latest"; GitHub.item "file" "LICENSE"] parts
    /\ [GitHub.item "file" "README.md"; GitHub.item "file" "docs/a.md";
        GitHub.item "file" "docs/img/p.png"; GitHub.item "file" "LICENSE"]
       = concat parts.
Proof.
  destruct (list_repo_files_flattens GitHub.small_repo 2 EmptyString
              [GitHub.item "file" "README.md"; GitHub.item "file" "docs/a.md";
               GitHub.item "file" "docs/img/p.png"; GitHub.item "file" "LICENSE"])
    as [items [parts [Hitems [Hparts Hfiles]]]].
  - vm_compute. reflexivity.
  - vm_compute in Hitems. injection Hitems as <-. exists parts. auto.
Defined.
